(* ===== verification/_CoqProject ===== *)
-Q . S2P
Prelude.v
Gesture.v
Resolver.v
Css.v
Controller.v
Scenarios.v
Refinement.v
Render.v
Spring.v
Converge.v
Settle.v
Dom.v
