(* ===== verification/Prelude.v ===== *)
(** * A verification development for react-swipeable-views ([src/src/index.js])

    ** The program

    [src/src/index.js] is one React component, [SwipeableViews].  It lays its
    children out side by side and lets the user swipe between them.  Its
    parts, and how they talk to each other:

    - the touch handlers [handleTouchStart], [handleTouchMove] and
      [handleTouchEnd] (lines 93-171) keep a drag session in instance fields
      of [this] ([startWidth], [startIndex], [startX], [lastX], [deltaX],
      [startY], [isScroll]) and write the React state
      ([index], [targetIndex], [isDragging]) with [setState];
    - [handleTouchEnd] resolves the fractional index reached by the drag into
      a slide index (quick flick, then hysteresis) and calls the
      [onChangeIndex] callback of the host when the slide changed;
    - [getInitialState], [componentDidMount] and [componentWillReceiveProps]
      (lines 61-92) initialise the state and let the host override the index
      through the [index] prop;
    - [render], [renderContainer] and [getTargetHeight] (lines 172-255) turn
      the state into the targets of two react-motion springs (horizontal
      translation [index * 100], container height of the targeted slide) and
      attach the touch handlers unless the [disabled] prop is set; the slide
      elements are recorded in [this._slides] by ref callbacks;
    - [renderContainer] (lines 181-223) builds the strip: a container [div]
      whose style is [objectAssign] of the transform
      [translate3d(-${translate}%, 0, 0)], the height, [styles.container]
      and the [style] prop, holding one [div] per slide styled by
      [styles.slide] (lines 9-21);
    - react-motion's [Motion] (a library, not part of this repository)
      animates the two values toward their targets, one spring step per
      frame.

    ** The development (library root of [_CoqProject])

    The files, in dependency order, and what each models:

    - [Prelude] (this file): JavaScript numbers as rationals [Q], the
      [Math.floor]/[Math.ceil]/[Math.round]/[Math.abs] functions, boolean
      comparisons in [js_scope], array indexing by a number ([js_index]),
      integrality and range predicates ([is_int], [slide_index]), their
      lemmas, [Proper] instances for rewriting with [Qeq], the hint database
      [swipe] and the tactics [js_cases] and [qconst].
    - [Gesture] (Module [Gesture]): the session fields of [this] as the
      record [Session]; [handleTouchStart]; [handleTouchMove] with the
      one-time scroll test [scroll_test], the smoothing [smooth] of
      [deltaX], and [clamp_index] (the clamped index and the reset of
      [startX] at a bound).  Theorems: the scroll test is made once and a
      scroll session is inert; the index of a move stays in
      [0, childCount - 1]; the exact value of the index on every branch;
      [deltaX] stays bounded by the largest displacement.
    - [Resolver] (Module [Resolver]): [indexNew], the decision of
      [handleTouchEnd] (lines 144-160).  Theorems: it lands on a slide; a
      quick flick goes in the direction of the finger; the hysteresis at
      0.6; a drag within one slide ends on a neighbour; it lands less than
      one slide from the released index; it respects [Qeq].
    - [Css] (Module [Css]): style objects as association lists in key
      order ([Style]), the [styles] constant, [objectAssign] as
      [Object.assign] (an existing key overwritten in place, a new one
      appended, an [undefined] source skipped), JavaScript's number to
      string conversion and the [translate3d] template ([translate_string]),
      and [parse_translate3d], a CSS reader of that value.  Lemmas:
      [objectAssign] is the last-write-wins reading of its writes and keeps
      keys unique.  Theorems: the transform of a non-negative translation
      reads back as [-x] percent; that of a negative one is rejected (the
      template writes a second minus sign).
    - [Controller] (Module [Controller]): the component ([Props], [State],
      the optional [Session]) with one Definition per lifecycle method and
      handler ([getInitialState], [componentDidMount],
      [componentWillReceiveProps], [touchStart], [touchMove],
      [handleTouchEnd]); [dispatch] delivers an [Event] with the touch
      handlers attached only when [disabled] is false (no [touchcancel]
      handler, as in the code); [run] delivers a sequence and collects the
      [onChangeIndex] calls.  [reachable] is the set of states reached by
      mounting, complete single-finger gestures on a node of positive
      width, and prop updates passing a slide; the invariant [idle] (index
      and target index are slides, nothing drags) holds on all of them, by
      induction on [reachable] with the during-drag invariant
      [dragging_ok].  A gesture calls [onChangeIndex] exactly when the index
      changed; a gesture that starts vertically changes nothing.
    - [Scenarios] (Module [Scenarios]): a tap, [touchstart] then
      [touchend] with no move.  Theorem: on every enabled component it
      freezes [index] and [targetIndex] at the index the component had and
      ends the drag, so a second finger landing during a drag and lifted
      at once leaves the component at rest between two slides.
    - [Refinement] (Module [Refinement]): the abstract pager [swipe_step]
      (stay and report nothing, or move to a page in range less than one
      slide from the released drag position and report it once) and its
      sequences [swipes]; every gesture of a reachable component, and every
      sequence of gestures, refines it under [page c = Math.floor(index)].
    - [Render] (Module [Render]): [render]'s spring targets ([springConfig],
      [MotionStyle], [getTargetHeight]), the [_slides] registry committed
      by [renderContainer]'s ref callbacks, [PureRenderMixin]'s
      [shouldComponentUpdate], and [update]/[mount]/[view_dispatch] for the
      React update cycle (render from the previous commit's slides, then
      commit).  Theorems: once synced the targets follow the state under
      every run of events that keeps the children; the first re-render
      after mounting syncs them; once synced, an update the mixin skips is
      observationally the same as the forced re-render [force_update].
      And where the height target goes wrong, for every host: mounted on
      a slide other than the first, the height target is 0 and a
      [touchstart] keeps it there; after the host changes the props, the
      new children are committed but the height target is the previous
      commit's, and a [touchstart] keeps it; a new [index] prop moves the
      translation target at once, unclamped and even during a drag, while
      [targetIndex] and the height target stay on the previous slide.
    - [Spring] (Module [Spring]): the interface [Stepper] (a class with its
      laws) that the [Motion] driver [motion_frame] is proved against, and
      the integrator the specification describes, [euler_step], as its
      instance.  Theorems at 60 frames per second: with the idle
      configuration no overshoot; with the dragging configuration, from
      rest at any distance [d] from any target, the value is on the other
      side of the target after 2 frames ([-d/9]) and farther from it after
      5 frames than after 4, against the specification's monotone decay.
      Lemmas: the dragging configuration still decays as
      [6^n e_n^2 <= e_0^2]; a synced idle view eases toward [100 * index]
      at the rate [9 |e_0| / (3 + n)].
    - [Converge] (Module [Converge]): a quadratic Lyapunov function for
      each configuration in use (idle: the eigen-modes [e + 2u] and
      [e + 3u], scaled by [3/4] and [2/3]; dragging: [drag_energy], scaled
      by [1/6]; react-motion's default [[170, 26]] for the height: a
      sum-of-squares certificate at [3/4]), so that from any state the
      squared error of either channel is at most [234 (3/4)^n] times its
      initial size; the frame loop [frames_until] of [Motion].  Theorems:
      a synced view's two channels converge to [100 * index] and to the
      measured height of the slide at [targetIndex]; the frame loop stops
      within [motion_bound] frames for every rendered style and every
      state of [Motion].
    - [Settle] (Module [Settle]): the composition.  After any sequence of
      complete swipes from a synced idle view, with animation frames
      interleaved in any way (frames do not change the component, only
      the state of [Motion]), the index is a slide, nothing drags, and
      both animated values converge to the targets of the state from
      whatever state the animation is in.
    - [Dom] (Module [Dom]): the tree [render] and [renderContainer] return
      ([Node]: [div]s with ref, style, handlers and children), built from
      the values [Motion] interpolates ([Interpolated]); the ref callbacks
      ([RefCallback], [ref_call]) writing the JS array [this._slides]
      ([js_array_set] grows it with holes), and [commit], which calls the
      previous tree's callbacks with [null] and then the new ones in order.
      Theorems: the committed registry reads the heights
      [Render.renderContainer_slides] gives; on a synced view during a
      drag, whenever the translation spring's error [e] and frame velocity
      [u] satisfy [18 T + u < 2 e] for the target [T], the value two frames
      later is [T + (u - 2 e) / 18 < 0] and the rendered transform is
      rejected by CSS.  A lemma shows the [style] prop reaches the strip
      container (overriding the transform and height) and never a slide.

    ** Numbers, fuel and bounds

    JavaScript numbers are modelled by [Q]: exact rationals, no rounding, no
    NaN and no infinities.  Page coordinates and sizes are finite, so only
    a division by a zero width could produce an infinity or NaN; the
    reachable states assume the width measured at touch start is positive
    (a touch can only start on a box of positive width), and the manifest
    records the zero-width case as a gap of the specification.  The
    JavaScript strict equality [===] on numbers is [Qeq_bool], so the model
    respects [Qeq] and the decision and the height lookup are [Proper] for
    it.  No definition needs fuel: handlers are non-recursive, event runs
    recurse on the event list and animation frames on their number
    ([iter]).  The spring rates hold for every number of frames; the frame
    loop [frames_until] takes fuel, and the termination theorem gives it
    [motion_bound + 1] frames, where [motion_bound] is
    [3 ceil(234 W / eps^2)] for the initial size [W] of the two channels:
    enough, since [(1 + n/3) (3/4)^n <= 1] (Bernoulli).  Numbers are printed in fixed notation with at most 20
    fractional digits ([max_frac_digits]), which is JavaScript's output
    for the values [1e-6 <= |x| < 1e21] whose shortest decimal has at most
    20 fractional digits; the round trip is stated for those.  A value
    with a longer expansion is printed truncated (JavaScript would print
    the shortest decimal of its double); only its sign matters to the
    theorems about rejected transforms.

    ** Not modelled

    The plumbing of React's event dispatch (the handlers receive already
    extracted [pageX]/[pageY] coordinates of the first touch), object
    identity in [PureRenderMixin]'s shallow comparison (props are compared
    by contents), the order in which React calls ref callbacks beyond the
    detach-then-attach order [Dom.commit] assumes, the exponent notation of
    [Number::toString], the [px] React appends to numeric styles, and
    react-motion's internals that the specification does not describe (its
    precision snap and its catch-up of skipped frames; the library is not
    part of the repository).  The DOM is taken not to change between
    commits: [this._slides] holds DOM nodes whose [clientHeight] is read
    live, and the model reads the height of the content last committed.  The react-motion
    stepper is a library: it is modelled from the specification's
    description and marked so in the manifest.

    ** Not stated as theorems

    Departures from the specification that a single concrete run shows,
    with no general statement beyond the definitions, are recorded in the
    findings of the manifest only: the missing [touchcancel] handler, the
    handlers detached when [disabled] is set during a drag, the
    [startX] reset at a bound ([Gesture.move_index_clamp] gives its exact
    effect), an [index] prop equal to the previous prop ignored although
    the state differs, and the [style] prop applied to the strip rather
    than to each slide.  A [Proper] account of [dispatch] for components
    equal as numbers, and the registry of [Dom] along a whole run of
    events, are left for later.
*)

From Stdlib Require Import QArith Qround Qabs Lqa ZArith Lia List Bool.
From Stdlib Require Import Setoid Morphisms.
Import ListNotations.

Declare Scope js_scope.
Delimit Scope js_scope with js.
Open Scope Q_scope.

(** ** JavaScript number operations *)

(** [a < b] and [a > b] on numbers. *)
Definition Qltb (x y : Q) : bool := negb (Qle_bool y x).

Notation "x <? y" := (Qltb x y) : js_scope.
Notation "x >? y" := (Qltb y x) : js_scope.
Notation "x <=? y" := (Qle_bool x y) : js_scope.
Notation "x ===? y" := (Qeq_bool x y) (at level 70, no associativity) : js_scope.

(** [Math.abs], [Math.floor], [Math.ceil], [Math.round].  [Math.round]
    rounds half-way cases toward positive infinity: it is
    [Math.floor (x + 0.5)]. *)
Definition math_abs (x : Q) : Q := Qabs x.
Definition math_floor (x : Q) : Q := inject_Z (Qfloor x).
Definition math_ceil (x : Q) : Q := inject_Z (Qceiling x).
Definition math_round (x : Q) : Q := inject_Z (Qfloor (x + (1 # 2))).

(** A number that is an integer ([Number.isInteger]). *)
Definition is_int (x : Q) : bool := Qeq_bool (math_floor x) x.

(** [lo <= x <= hi]. *)
Definition in_range (lo hi x : Q) : bool := Qle_bool lo x && Qle_bool x hi.

(** The number of a JavaScript array index: [arr[x]] reads the element at
    [x] when [x] is a non-negative integer, and [undefined] otherwise. *)
Definition js_index (x : Q) : option nat :=
  if is_int x && Qle_bool 0 x then Some (Z.to_nat (Qfloor x)) else None.

(** [React.Children.count(children) - 1] for a list of [n] children. *)
Definition last_index (n : nat) : Q := inject_Z (Z.of_nat n - 1).

(** A valid slide index for [n] children: an integer in [0, n - 1]. *)
Definition slide_index (n : nat) (x : Q) : bool :=
  is_int x && in_range 0 (last_index n) x.

(** [n] applications of [f]. *)
Fixpoint iter {A : Type} (n : nat) (f : A -> A) (x : A) : A :=
  match n with
  | O => x
  | S k => f (iter k f x)
  end.

Lemma iter_succ_r {A : Type} n (f : A -> A) x : iter (S n) f x = iter n f (f x).
Proof. induction n as [| n IH]; simpl in *; [reflexivity | now rewrite <- IH]. Qed.

Create HintDb swipe.

(** ** Squares and products *)

Lemma Qsq_nonneg x : 0 <= x * x.
Proof.
  destruct (Qlt_le_dec x 0) as [H | H].
  - setoid_replace (x * x) with ((- x) * (- x)) by ring.
    apply Qmult_le_0_compat; lra.
  - apply Qmult_le_0_compat; lra.
Qed.

Lemma inject_Z_of_nat_nonneg n : 0 <= inject_Z (Z.of_nat n).
Proof. change 0 with (inject_Z 0). rewrite <- Zle_Qle. lia. Qed.

Lemma inject_Z_of_nat_succ n : inject_Z (Z.of_nat (S n)) == inject_Z (Z.of_nat n) + 1.
Proof. rewrite Nat2Z.inj_succ, <- Z.add_1_r, inject_Z_plus. reflexivity. Qed.

(** ** Reflection of the boolean comparisons *)

Lemma Qltb_spec x y : reflect (x < y) (Qltb x y).
Proof.
  unfold Qltb. destruct (Qle_bool y x) eqn:E; constructor.
  - apply Qle_bool_iff in E. intros H. apply (Qlt_not_le x y); assumption.
  - apply Qnot_le_lt. intros H. apply Qle_bool_iff in H. congruence.
Qed.

Lemma Qle_bool_spec x y : reflect (x <= y) (Qle_bool x y).
Proof.
  destruct (Qle_bool x y) eqn:E; constructor.
  - now apply Qle_bool_iff.
  - intros H. apply Qle_bool_iff in H. congruence.
Qed.

Lemma Qeq_bool_spec x y : reflect (x == y) (Qeq_bool x y).
Proof.
  destruct (Qeq_bool x y) eqn:E; constructor.
  - now apply Qeq_bool_iff.
  - intros H. apply Qeq_bool_iff in H. congruence.
Qed.

(** Case analysis on every JavaScript comparison of the goal. *)
Ltac js_cases :=
  repeat match goal with
  | |- context [Qltb ?x ?y] => destruct (Qltb_spec x y)
  | |- context [Qle_bool ?x ?y] => destruct (Qle_bool_spec x y)
  | |- context [Qeq_bool ?x ?y] => destruct (Qeq_bool_spec x y)
  end.

(** Closes a comparison between rational constants by evaluation. *)
Ltac qconst :=
  repeat split; vm_compute; first [reflexivity | discriminate | intros; discriminate].

(** ** Integers among the rationals *)

Lemma is_int_spec x : is_int x = true <-> exists z, x == inject_Z z.
Proof.
  unfold is_int, math_floor. rewrite Qeq_bool_iff. split.
  - intros H. exists (Qfloor x). now symmetry.
  - intros [z Hz]. rewrite (Qfloor_comp x (inject_Z z) Hz), Qfloor_Z. now symmetry.
Qed.

Lemma is_int_Z z : is_int (inject_Z z) = true.
Proof. apply is_int_spec. now exists z. Qed.

Lemma math_floor_int x : is_int (math_floor x) = true.
Proof. apply is_int_Z. Qed.

Lemma math_ceil_int x : is_int (math_ceil x) = true.
Proof. apply is_int_Z. Qed.

Lemma math_round_int x : is_int (math_round x) = true.
Proof. apply is_int_Z. Qed.

#[export] Hint Resolve is_int_Z math_floor_int math_ceil_int math_round_int : swipe.

(** ** The rounding functions and integer bounds *)

Lemma inject_Z_sub (a b : Z) : inject_Z (a - b) == inject_Z a - inject_Z b.
Proof. unfold Qeq, Qminus, Qplus, Qopp. simpl. lia. Qed.


Lemma Qfloor_ge_Z (z : Z) x : inject_Z z <= x -> (z <= Qfloor x)%Z.
Proof. intros H. rewrite <- (Qfloor_Z z). now apply Qfloor_resp_le. Qed.

Lemma Qfloor_le_Z (z : Z) x : x <= inject_Z z -> (Qfloor x <= z)%Z.
Proof. intros H. rewrite <- (Qfloor_Z z). now apply Qfloor_resp_le. Qed.

Lemma Qceiling_ge_Z (z : Z) x : inject_Z z <= x -> (z <= Qceiling x)%Z.
Proof. intros H. rewrite <- (Qceiling_Z z). now apply Qceiling_resp_le. Qed.

Lemma Qceiling_le_Z (z : Z) x : x <= inject_Z z -> (Qceiling x <= z)%Z.
Proof. intros H. rewrite <- (Qceiling_Z z). now apply Qceiling_resp_le. Qed.

Lemma math_floor_bounds x : math_floor x <= x < math_floor x + 1.
Proof.
  unfold math_floor. split; [apply Qfloor_le |].
  pose proof (Qlt_floor x) as H. rewrite inject_Z_plus in H. exact H.
Qed.

Lemma math_ceil_bounds x : math_ceil x - 1 < x <= math_ceil x.
Proof.
  unfold math_ceil. split; [| apply Qle_ceiling].
  pose proof (Qceiling_lt x) as H.
  rewrite inject_Z_sub in H. exact H.
Qed.

Lemma math_round_bounds x : x - (1 # 2) < math_round x <= x + (1 # 2).
Proof.
  unfold math_round. pose proof (math_floor_bounds (x + (1 # 2))) as H.
  unfold math_floor in H. lra.
Qed.

(** Rounding a number of an integer interval stays in the interval. *)
Section IntegerInterval.
Variables lo hi : Z.
Variable x : Q.
Hypothesis Hlo : inject_Z lo <= x.
Hypothesis Hhi : x <= inject_Z hi.

Lemma math_floor_in_range : inject_Z lo <= math_floor x <= inject_Z hi.
Proof.
  unfold math_floor. rewrite <- !Zle_Qle.
  split; [apply Qfloor_ge_Z | apply Qfloor_le_Z]; lra.
Qed.

Lemma math_ceil_in_range : inject_Z lo <= math_ceil x <= inject_Z hi.
Proof.
  unfold math_ceil. rewrite <- !Zle_Qle.
  split; [apply Qceiling_ge_Z | apply Qceiling_le_Z]; lra.
Qed.

Lemma math_round_in_range : inject_Z lo <= math_round x <= inject_Z hi.
Proof.
  unfold math_round. rewrite <- !Zle_Qle. split.
  - apply Qfloor_ge_Z. lra.
  - assert (Hlt : (Qfloor (x + (1 # 2)) < hi + 1)%Z).
    { rewrite Zlt_Qlt, inject_Z_plus.
      pose proof (Qfloor_le (x + (1 # 2))). change (inject_Z 1) with 1. lra. }
    lia.
Qed.
End IntegerInterval.

(** ** Range and slide indices *)

Lemma in_range_spec lo hi x : in_range lo hi x = true <-> lo <= x <= hi.
Proof.
  unfold in_range. rewrite andb_true_iff, !Qle_bool_iff. reflexivity.
Qed.

Lemma slide_index_spec n x :
  slide_index n x = true <->
  (exists z, x == inject_Z z) /\ 0 <= x <= last_index n.
Proof. unfold slide_index. rewrite andb_true_iff, is_int_spec, in_range_spec. tauto. Qed.

Lemma slide_index_intro n x :
  is_int x = true -> 0 <= x <= last_index n -> slide_index n x = true.
Proof.
  intros Hi Hr. unfold slide_index. rewrite Hi. now apply in_range_spec.
Qed.

(** A slide index exists only when there is at least one child. *)
Lemma slide_index_pos n x : slide_index n x = true -> (1 <= n)%nat.
Proof.
  rewrite slide_index_spec. intros [_ [H1 H2]].
  assert (H : inject_Z 0 <= inject_Z (Z.of_nat n - 1)) by exact (Qle_trans _ _ _ H1 H2).
  rewrite <- Zle_Qle in H. lia.
Qed.

Lemma slide_index_range n x : slide_index n x = true -> 0 <= x <= last_index n.
Proof. rewrite slide_index_spec. tauto. Qed.

(** ** [Proper] instances: the operations respect [Qeq] *)

#[export] Instance Qltb_comp : Proper (Qeq ==> Qeq ==> eq) Qltb.
Proof. intros x x' Hx y y' Hy. unfold Qltb. now rewrite Hx, Hy. Qed.

#[export] Instance math_abs_comp : Proper (Qeq ==> Qeq) math_abs.
Proof. intros x y H. unfold math_abs. now rewrite H. Qed.

#[export] Instance math_floor_comp : Proper (Qeq ==> Qeq) math_floor.
Proof. intros x y H. unfold math_floor. now rewrite H. Qed.

#[export] Instance math_ceil_comp : Proper (Qeq ==> Qeq) math_ceil.
Proof. intros x y H. unfold math_ceil. now rewrite H. Qed.

#[export] Instance math_round_comp : Proper (Qeq ==> Qeq) math_round.
Proof. intros x y H. unfold math_round. now rewrite H. Qed.

#[export] Instance is_int_comp : Proper (Qeq ==> eq) is_int.
Proof. intros x y H. unfold is_int. now rewrite H. Qed.

#[export] Instance in_range_comp : Proper (Qeq ==> Qeq ==> Qeq ==> eq) in_range.
Proof. intros a a' Ha b b' Hb x x' Hx. unfold in_range. now rewrite Ha, Hb, Hx. Qed.

#[export] Instance slide_index_comp n : Proper (Qeq ==> eq) (slide_index n).
Proof. intros x y H. unfold slide_index. now rewrite H. Qed.

#[export] Instance js_index_comp : Proper (Qeq ==> eq) js_index.
Proof.
  intros x y H. unfold js_index. rewrite (is_int_comp x y H).
  now rewrite H, (Qfloor_comp x y H).
Qed.

(** Index 0 of an array is read only at the number 0. *)
Lemma js_index_zero x : js_index x = Some 0%nat -> x == 0.
Proof.
  unfold js_index. destruct (is_int x) eqn:Hi, (Qle_bool 0 x) eqn:Hl; try discriminate.
  intros H. injection H as H. apply Qle_bool_iff in Hl.
  pose proof (Qfloor_ge_Z 0 x Hl) as Hz.
  assert (Hf : Qfloor x = 0%Z) by lia.
  unfold is_int, math_floor in Hi. apply Qeq_bool_iff in Hi. rewrite Hf in Hi.
  now rewrite <- Hi.
Qed.
