(* ===== verification/Gesture.v ===== *)
(** * The drag session: [handleTouchStart] and [handleTouchMove]

    The instance fields that [handleTouchStart] sets on [this]
    ([src/src/index.js] lines 93-103) form a [Session] record; the move
    handler (lines 104-138) is [handleTouchMove], which returns the updated
    session and what the handler did: [Scrolled] when it returned early on a
    scroll gesture, or [Dragged i] when it called [preventDefault] and
    [setState({isDragging: true, index: i})]. *)

From Stdlib Require Import QArith Qabs Lqa ZArith Lia Bool.
From S2P Require Import Prelude.
Open Scope Q_scope.

Module Gesture.

(** [event.touches[0]]: the page coordinates of the first touch point. *)
Record Touch := mkTouch { pageX : Q; pageY : Q }.

(** The instance fields of one drag session.  [isScroll] is
    [undefined] ([None]) until the first move decides it. *)
Record Session := mkSession {
  startWidth : Q;
  startIndex : Q;
  startX : Q;
  lastX : Q;
  deltaX : Q;
  startY : Q;
  isScroll : option bool
}.

(** What the move handler did with the event. *)
Inductive MoveResult :=
| Scrolled
| Dragged (index : Q).

(** [handleTouchStart]: [width] is the width of the component's DOM node,
    [index] is [this.state.index]. *)
Definition handleTouchStart (width index : Q) (t : Touch) : Session :=
  {| startWidth := width;
     startIndex := index;
     startX := pageX t;
     lastX := pageX t;
     deltaX := 0;
     startY := pageY t;
     isScroll := None |}.

(** The one-time scroll test (lines 107-110). *)
Definition scroll_test (s : Session) (t : Touch) : Session :=
  match isScroll s with
  | None =>
      {| startWidth := startWidth s; startIndex := startIndex s;
         startX := startX s; lastX := lastX s; deltaX := deltaX s;
         startY := startY s;
         isScroll := Some (Qltb (math_abs (startX s - pageX t))
                                (math_abs (startY s - pageY t))) |}
  | Some _ => s
  end.

(** The exponential smoothing of the horizontal delta (line 119). *)
Definition smooth (deltaX lastX x : Q) : Q :=
  deltaX * (1 # 2) + (x - lastX) * (1 # 2).

(** The fractional index and the new [startX] (lines 122-132). *)
Definition clamp_index (startIndex startX startWidth x indexMax : Q) : Q * Q :=
  let index := startIndex + (startX - x) / startWidth in
  if Qltb index 0 then (0, x)
  else if Qltb indexMax index then (indexMax, x)
  else (index, startX).

(** [handleTouchMove] for a component with [n] children. *)
Definition handleTouchMove (n : nat) (s : Session) (t : Touch)
    : Session * MoveResult :=
  let s1 := scroll_test s t in
  match isScroll s1 with
  | Some true => (s1, Scrolled)
  | _ =>
      let dx := smooth (deltaX s1) (lastX s1) (pageX t) in
      let '(index, sx) :=
        clamp_index (startIndex s1) (startX s1) (startWidth s1) (pageX t)
                    (last_index n) in
      ({| startWidth := startWidth s1; startIndex := startIndex s1;
          startX := sx; lastX := pageX t; deltaX := dx;
          startY := startY s1; isScroll := isScroll s1 |},
       Dragged index)
  end.

(** ** Helper lemmas *)

Lemma scroll_test_decided s t : exists b, isScroll (scroll_test s t) = Some b.
Proof. unfold scroll_test. destruct (isScroll s) eqn:E; simpl; eauto. Qed.

Lemma scroll_test_keep s t b : isScroll s = Some b -> scroll_test s t = s.
Proof. unfold scroll_test. now intros ->. Qed.

Lemma last_index_nonneg n : (1 <= n)%nat -> 0 <= last_index n.
Proof.
  intros H. unfold last_index. change 0 with (inject_Z 0).
  rewrite <- Zle_Qle. lia.
Qed.

(** The result of a move that drags, unfolded. *)
Lemma handleTouchMove_drag n s t :
  isScroll (scroll_test s t) <> Some true ->
  let s1 := scroll_test s t in
  let c := clamp_index (startIndex s1) (startX s1) (startWidth s1) (pageX t)
                       (last_index n) in
  handleTouchMove n s t =
    ({| startWidth := startWidth s1; startIndex := startIndex s1;
        startX := snd c; lastX := pageX t;
        deltaX := smooth (deltaX s1) (lastX s1) (pageX t);
        startY := startY s1; isScroll := isScroll s1 |}, Dragged (fst c)).
Proof.
  intros H. cbv zeta. unfold handleTouchMove.
  destruct (isScroll (scroll_test s t)) as [[|]|]; [congruence | |];
  now destruct clamp_index.
Qed.

Lemma clamp_index_range si sx w x m :
  0 <= m -> 0 <= fst (clamp_index si sx w x m) <= m.
Proof.
  intros Hm. unfold clamp_index. js_cases; simpl; lra.
Qed.

#[export] Hint Resolve last_index_nonneg clamp_index_range : swipe.

Lemma scroll_test_fields s t :
  startIndex (scroll_test s t) = startIndex s /\
  startX (scroll_test s t) = startX s /\
  startWidth (scroll_test s t) = startWidth s /\
  lastX (scroll_test s t) = lastX s /\
  deltaX (scroll_test s t) = deltaX s.
Proof. unfold scroll_test. destruct (isScroll s); repeat split. Qed.

Lemma handleTouchMove_startIndex n s t :
  startIndex (fst (handleTouchMove n s t)) = startIndex s.
Proof.
  destruct (isScroll (scroll_test s t)) as [[|]|] eqn:E.
  - unfold handleTouchMove. rewrite E. apply scroll_test_fields.
  - rewrite handleTouchMove_drag by congruence. apply scroll_test_fields.
  - rewrite handleTouchMove_drag by congruence. apply scroll_test_fields.
Qed.

(** A move either leaves a session that is (or becomes) a scroll, or drags
    and leaves a session decided as a swipe. *)
Lemma handleTouchMove_result n s t :
  (snd (handleTouchMove n s t) = Scrolled /\ isScroll s <> Some false /\
   isScroll (fst (handleTouchMove n s t)) = Some true) \/
  (exists i, snd (handleTouchMove n s t) = Dragged i /\
             isScroll (fst (handleTouchMove n s t)) = Some false).
Proof.
  unfold handleTouchMove, scroll_test.
  destruct (isScroll s) as [[|]|] eqn:E; simpl.
  - rewrite E. left. simpl. repeat split; congruence.
  - rewrite E. right. destruct clamp_index. simpl. eauto.
  - destruct Qltb; simpl.
    + left. simpl. repeat split; congruence.
    + right. destruct clamp_index. simpl. eauto.
Qed.

(** A first move more vertical than horizontal decides a scroll. *)
Lemma scroll_test_vertical s t :
  isScroll s = None -> Qabs (startX s - pageX t) < Qabs (startY s - pageY t) ->
  isScroll (scroll_test s t) = Some true.
Proof.
  intros H Hv. unfold scroll_test. rewrite H. cbn [isScroll]. unfold math_abs.
  destruct (Qltb_spec (Qabs (startX s - pageX t)) (Qabs (startY s - pageY t)));
    [reflexivity | contradiction].
Qed.

Lemma first_move_vertical n s t :
  isScroll s = None -> Qabs (startX s - pageX t) < Qabs (startY s - pageY t) ->
  handleTouchMove n s t = (scroll_test s t, Scrolled).
Proof.
  intros H Hv. unfold handleTouchMove. now rewrite (scroll_test_vertical s t H Hv).
Qed.

(** The index a dragging move sets is the clamped index. *)
Lemma handleTouchMove_dragged n s t i :
  snd (handleTouchMove n s t) = Dragged i ->
  i = fst (clamp_index (startIndex s) (startX s) (startWidth s) (pageX t) (last_index n)).
Proof.
  intros Hd. destruct (scroll_test_fields s t) as (Hsi & Hsx & Hsw & _).
  destruct (isScroll (scroll_test s t)) as [[|]|] eqn:E.
  - unfold handleTouchMove in Hd. rewrite E in Hd. discriminate.
  - rewrite handleTouchMove_drag in Hd by congruence. injection Hd as <-.
    now rewrite Hsi, Hsx, Hsw.
  - rewrite handleTouchMove_drag in Hd by congruence. injection Hd as <-.
    now rewrite Hsi, Hsx, Hsw.
Qed.

(** ** Properties *)

(** C16: the scroll test is made once per session: once [isScroll] is
    decided, no later move changes it. *)
Lemma isScroll_decided_once n s t b :
  isScroll s = Some b -> isScroll (fst (handleTouchMove n s t)) = Some b.
Proof.
  intros H. unfold handleTouchMove. rewrite (scroll_test_keep s t b H), H.
  destruct b; [exact H |]. now destruct clamp_index.
Qed.

(** A session classified as a scroll is inert: every later move returns
    early, leaves the session unchanged and does not touch the state,
    whatever its horizontal movement. *)
Lemma scroll_session_inert n s t :
  isScroll s = Some true -> handleTouchMove n s t = (s, Scrolled).
Proof.
  intros H. unfold handleTouchMove. now rewrite (scroll_test_keep s t true H), H.
Qed.

(** C14: the first move of a session is a scroll exactly when its vertical
    distance from the start point is larger than its horizontal one. *)
Lemma first_move_classification n s t :
  isScroll s = None ->
  (snd (handleTouchMove n s t) = Scrolled <->
   Qabs (startX s - pageX t) < Qabs (startY s - pageY t)).
Proof.
  intros H. unfold handleTouchMove, scroll_test. rewrite H. unfold math_abs.
  destruct (Qltb_spec (Qabs (startX s - pageX t)) (Qabs (startY s - pageY t)))
    as [Hl | Hl]; cbn -[Qabs clamp_index].
  - split; auto.
  - destruct clamp_index. simpl. split; [discriminate | contradiction].
Qed.

(** C9: a dragging move of a component with at least one child sets the
    index to a number of [0, childCount - 1]. *)
Theorem move_index_in_range n s t i :
  (1 <= n)%nat -> snd (handleTouchMove n s t) = Dragged i ->
  0 <= i <= last_index n.
Proof.
  intros Hn Hd. rewrite (handleTouchMove_dragged n s t i Hd). auto with swipe.
Qed.
(** The value of the index before clamping, for a session [s] and a touch
    at [x]: [this.startIndex + (this.startX - touch.pageX) / this.startWidth]. *)
Definition raw_index (s : Session) (x : Q) : Q :=
  startIndex s + (startX s - x) / startWidth s.

(** The clamping, case by case, for a session that drags. *)
Lemma clamp_index_cases si sx w x m :
  let r := si + (sx - x) / w in
  (r < 0 /\ clamp_index si sx w x m = (0, x)) \/
  (0 <= r /\ m < r /\ clamp_index si sx w x m = (m, x)) \/
  (0 <= r <= m /\ clamp_index si sx w x m = (r, sx)).
Proof.
  cbv zeta. unfold clamp_index. js_cases; [left | right; left | right; right];
  repeat split; auto; apply Qnot_lt_le; assumption.
Qed.

(** C10: a dragging move whose raw index lies in [0, childCount - 1] sets the
    index to [startIndex + (startX - pageX) / startWidth] and keeps
    [startX]; a move beyond a bound sets the index to that bound and moves
    [startX] to the touch point. *)
Theorem move_index_clamp n s t :
  isScroll (scroll_test s t) <> Some true ->
  let r := raw_index s (pageX t) in
  let s' := fst (handleTouchMove n s t) in
  let res := snd (handleTouchMove n s t) in
  (0 <= r <= last_index n -> res = Dragged r /\ startX s' = startX s) /\
  (r < 0 -> res = Dragged 0 /\ startX s' = pageX t) /\
  (0 <= r -> last_index n < r -> res = Dragged (last_index n) /\ startX s' = pageX t).
Proof.
  intros Hd. cbv zeta. rewrite handleTouchMove_drag by exact Hd. simpl.
  unfold raw_index. destruct (scroll_test_fields s t) as (-> & -> & -> & _).
  destruct (clamp_index_cases (startIndex s) (startX s) (startWidth s) (pageX t)
                              (last_index n)) as [(? & ->) | [(? & ? & ->) | ((? & ?) & ->)]];
  simpl; repeat split; intros; try reflexivity; exfalso; lra.
Qed.

(** C17: the smoothed delta never exceeds the largest horizontal displacement
    between two consecutive touch points: if it is bounded by [M] before a
    move whose displacement from [lastX] is at most [M], it is bounded by
    [M] after the move. *)
Theorem deltaX_bounded n s t M :
  Qabs (deltaX s) <= M -> Qabs (pageX t - lastX s) <= M ->
  Qabs (deltaX (fst (handleTouchMove n s t))) <= M.
Proof.
  intros Hd Hx. destruct (isScroll (scroll_test s t)) as [[|]|] eqn:E.
  - unfold handleTouchMove. rewrite E. cbn [fst].
    destruct (scroll_test_fields s t) as (_ & _ & _ & _ & ->). exact Hd.
  - rewrite handleTouchMove_drag by congruence. cbn [fst deltaX].
    destruct (scroll_test_fields s t) as (_ & _ & _ & -> & ->). unfold smooth.
    apply Qabs_Qle_condition in Hd, Hx. apply Qabs_Qle_condition. lra.
  - rewrite handleTouchMove_drag by congruence. cbn [fst deltaX].
    destruct (scroll_test_fields s t) as (_ & _ & _ & -> & ->). unfold smooth.
    apply Qabs_Qle_condition in Hd, Hx. apply Qabs_Qle_condition. lra.
Qed.

(** ** Witnesses *)

(** A session that started at slide 1 on a node 100 pixels wide, at
    (200, 50). *)
Definition example_session : Session := handleTouchStart 100 1 (mkTouch 200 50).

Lemma isScroll_decided_once_witness :
  let s := fst (handleTouchMove 3 example_session (mkTouch 150 52)) in
  isScroll s = Some false /\
  isScroll (fst (handleTouchMove 3 s (mkTouch 140 90))) = Some false.
Proof.
  split; [reflexivity | apply isScroll_decided_once; reflexivity].
Defined.

Lemma first_move_classification_witness :
  isScroll example_session = None /\
  (snd (handleTouchMove 3 example_session (mkTouch 198 80)) = Scrolled <->
   Qabs (startX example_session - 198) < Qabs (startY example_session - 80)).
Proof.
  split; [reflexivity |].
  apply (first_move_classification 3 example_session (mkTouch 198 80)); reflexivity.
Defined.

Lemma move_index_in_range_witness :
  (1 <= 3)%nat /\
  snd (handleTouchMove 3 example_session (mkTouch 150 50)) =
    Dragged (1 + (200 - 150) / 100) /\
  0 <= 1 + (200 - 150) / 100 <= last_index 3.
Proof.
  split; [lia |]. split; [reflexivity |].
  apply (move_index_in_range 3 example_session (mkTouch 150 50)); [lia | reflexivity].
Defined.

Lemma move_index_clamp_witness :
  isScroll (scroll_test example_session (mkTouch 0 50)) <> Some true /\
  snd (handleTouchMove 3 example_session (mkTouch 0 50)) = Dragged (last_index 3).
Proof.
  assert (H : isScroll (scroll_test example_session (mkTouch 0 50)) <> Some true)
    by (vm_compute; discriminate).
  split; [exact H |].
  apply (move_index_clamp 3 example_session (mkTouch 0 50) H); qconst.
Defined.

Lemma deltaX_bounded_witness :
  Qabs (deltaX example_session) <= 60 /\ Qabs (150 - lastX example_session) <= 60 /\
  Qabs (deltaX (fst (handleTouchMove 3 example_session (mkTouch 150 50)))) <= 60.
Proof.
  assert (H1 : Qabs (deltaX example_session) <= 60) by qconst.
  assert (H2 : Qabs (150 - lastX example_session) <= 60) by qconst.
  split; [exact H1 | split; [exact H2 |]].
  exact (deltaX_bounded 3 example_session (mkTouch 150 50) 60 H1 H2).
Defined.

End Gesture.
