(* ===== verification/Resolver.v ===== *)
(** * The release decision of [handleTouchEnd]

    [indexNew] is the computation of lines 144-160 of [src/src/index.js]:
    a quick flick (the smoothed [deltaX] beyond [threshold] in absolute
    value) snaps to [Math.floor] or [Math.ceil] of the index by the sign of
    [deltaX]; otherwise the index is rounded when it moved more than [0.6]
    from [startIndex], and falls back to [startIndex] when it did not.  The
    file proves that the decision lands on a slide, never farther than one
    slide from the index reached, in the direction of the flick, and that
    it respects [Qeq]. *)

From Stdlib Require Import QArith Qround Qabs Lqa ZArith Lia Bool Setoid Morphisms.
From S2P Require Import Prelude.
Open Scope Q_scope.

Module Resolver.

(** [indexNew] for [this.props.threshold], [this.startIndex],
    [this.state.index] and [this.deltaX]. *)
Definition indexNew (threshold startIndex index deltaX : Q) : Q :=
  if Qltb threshold (math_abs deltaX) then
    if Qltb 0 deltaX then math_floor index else math_ceil index
  else if Qltb (6 # 10) (math_abs (startIndex - index)) then math_round index
  else startIndex.

(** The three outcomes of the decision, with the conditions that lead to
    each. *)
Lemma indexNew_cases th si i d :
  (th < Qabs d /\ 0 < d /\ indexNew th si i d = math_floor i) \/
  (th < Qabs d /\ d <= 0 /\ indexNew th si i d = math_ceil i) \/
  (Qabs d <= th /\ (6 # 10) < Qabs (si - i) /\ indexNew th si i d = math_round i) \/
  (Qabs d <= th /\ Qabs (si - i) <= (6 # 10) /\ indexNew th si i d = si).
Proof.
  unfold indexNew, math_abs. js_cases;
  [left | right; left | right; right; left | right; right; right];
  repeat split; auto; apply Qnot_lt_le; assumption.
Qed.

(** The decision lands less than one slide away from the index reached. *)
Lemma indexNew_near th si i d : Qabs (indexNew th si i d - i) < 1.
Proof.
  apply Qabs_Qlt_condition.
  destruct (indexNew_cases th si i d)
    as [(_ & _ & ->) | [(_ & _ & ->) | [(_ & _ & ->) | (_ & Hs & ->)]]].
  - pose proof (math_floor_bounds i). lra.
  - pose proof (math_ceil_bounds i). lra.
  - pose proof (math_round_bounds i). lra.
  - apply Qabs_Qle_condition in Hs. lra.
Qed.

#[export] Instance indexNew_comp :
  Proper (Qeq ==> Qeq ==> Qeq ==> Qeq ==> Qeq) indexNew.
Proof.
  intros th th' Hth si si' Hsi i i' Hi d d' Hd. unfold indexNew.
  rewrite (Qltb_comp _ _ Hth _ _ (math_abs_comp _ _ Hd)),
          (Qltb_comp 0 0 (Qeq_refl 0) _ _ Hd),
          (Qltb_comp _ _ (Qeq_refl (6 # 10)) _ _ (math_abs_comp _ _ (Qminus_comp _ _ Hsi _ _ Hi))).
  destruct Qltb; [destruct Qltb | destruct Qltb]; now rewrite ?Hi.
Qed.

Lemma Z_window (a k : Z) :
  inject_Z (a - 1) <= inject_Z k <= inject_Z (a + 1) ->
  (k = a - 1 \/ k = a \/ k = a + 1)%Z.
Proof. rewrite <- !Zle_Qle. lia. Qed.

(** ** Properties for a component with [n] children *)

Section Bounds.
Variable n : nat.
Variables threshold startIndex index deltaX : Q.
(** The drag started on a slide... *)
Hypothesis Hstart : slide_index n startIndex = true.
(** ...and the move handler kept the index in [0, childCount - 1]. *)
Hypothesis Hindex : 0 <= index <= last_index n.

Let Hbounds : inject_Z 0 <= index <= inject_Z (Z.of_nat n - 1).
Proof. exact Hindex. Qed.

(** The decision is an integer of [0, childCount - 1]. *)
Lemma indexNew_int_range :
  is_int (indexNew threshold startIndex index deltaX) = true /\
  0 <= indexNew threshold startIndex index deltaX <= last_index n.
Proof.
  destruct Hbounds as [Hl Hh].
  destruct (indexNew_cases threshold startIndex index deltaX)
    as [(_ & _ & ->) | [(_ & _ & ->) | [(_ & _ & ->) | (_ & _ & ->)]]];
    [| | | apply slide_index_spec in Hstart as ([z Hz] & Hr);
           split; [apply is_int_spec; now exists z | exact Hr]];
  split; auto with swipe;
  [apply (math_floor_in_range _ _ _ Hl Hh)
  | apply (math_ceil_in_range _ _ _ Hl Hh)
  | apply (math_round_in_range _ _ _ Hl Hh)].
Qed.

(** C4: the decision of [handleTouchEnd] is always a slide: an integer of
    [0, childCount - 1]. *)
Theorem indexNew_slide_index :
  slide_index n (indexNew threshold startIndex index deltaX) = true.
Proof. destruct indexNew_int_range as [Hi Hr]. now apply slide_index_intro. Qed.
End Bounds.

(** C6: a quick flick commits in the direction the finger moved: a flick to
    the left ([deltaX] below [-threshold]) lands at or after the index
    reached, a flick to the right ([deltaX] above [threshold]) at or before
    it, and in both cases less than one slide away. *)
Theorem quick_flick_direction th si i d :
  0 <= th ->
  (d < - th -> i <= indexNew th si i d < i + 1) /\
  (th < d -> i - 1 < indexNew th si i d <= i).
Proof.
  intros Hth. pose proof (math_floor_bounds i). pose proof (math_ceil_bounds i).
  split; intros Hd;
  destruct (indexNew_cases th si i d)
    as [(Ha & Hs & ->) | [(Ha & Hs & ->) | [(Ha & _ & _) | (Ha & _ & _)]]];
  try lra; exfalso; apply Qabs_Qle_condition in Ha; lra.
Qed.

(** C7: a release that was not a quick flick goes to the nearest slide when
    the index moved more than [0.6] from the start, and back to the start
    slide otherwise. *)
Theorem slow_release_hysteresis th si i d :
  Qabs d <= th ->
  ((6 # 10) < Qabs (si - i) -> indexNew th si i d == math_round i) /\
  (Qabs (si - i) <= (6 # 10) -> indexNew th si i d == si).
Proof.
  intros Hd.
  destruct (indexNew_cases th si i d)
    as [(Ha & _ & _) | [(Ha & _ & _) | [(_ & Hs & ->) | (_ & Hs & ->)]]];
  try (exfalso; lra); split; intros; try reflexivity; exfalso; lra.
Qed.

(** C8: a drag that stays within one slide of its start slide ends on the
    start slide or on one of its two neighbours. *)
Theorem indexNew_adjacent th (si : Z) i d :
  Qabs (i - inject_Z si) < 1 ->
  exists k : Z, (k = si - 1 \/ k = si \/ k = si + 1)%Z /\
                indexNew th (inject_Z si) i d == inject_Z k.
Proof.
  intros Hi. apply Qabs_Qlt_condition in Hi.
  assert (Hl : inject_Z (si - 1) <= i) by (rewrite inject_Z_sub; change (inject_Z 1) with 1; lra).
  assert (Hh : i <= inject_Z (si + 1)) by (rewrite inject_Z_plus; change (inject_Z 1) with 1; lra).
  destruct (indexNew_cases th (inject_Z si) i d)
    as [(_ & _ & ->) | [(_ & _ & ->) | [(_ & _ & ->) | (_ & _ & ->)]]].
  - exists (Qfloor i). split; [apply Z_window, (math_floor_in_range _ _ _ Hl Hh) | reflexivity].
  - exists (Qceiling i). split; [apply Z_window, (math_ceil_in_range _ _ _ Hl Hh) | reflexivity].
  - exists (Qfloor (i + (1 # 2))).
    split; [apply Z_window, (math_round_in_range _ _ _ Hl Hh) | reflexivity].
  - exists si. split; [lia | reflexivity].
Qed.

(** ** Witnesses: the scenarios of the release decision at threshold 5 *)

Lemma indexNew_slide_index_witness :
  slide_index 3 0 = true /\ (0 <= (7 # 10) <= last_index 3) /\
  slide_index 3 (indexNew 5 0 (7 # 10) (-2)) = true.
Proof.
  assert (H1 : slide_index 3 0 = true) by reflexivity.
  assert (H2 : 0 <= (7 # 10) <= last_index 3) by qconst.
  split; [exact H1 | split; [exact H2 |]].
  exact (indexNew_slide_index 3 5 0 (7 # 10) (-2) H1 H2).
Defined.

Lemma quick_flick_direction_witness :
  0 <= 5 /\ (3 # 10) <= indexNew 5 0 (3 # 10) (-8) < (3 # 10) + 1.
Proof.
  assert (H : 0 <= 5) by qconst.
  split; [exact H |].
  apply (quick_flick_direction 5 0 (3 # 10) (-8) H). qconst.
Defined.

Lemma slow_release_hysteresis_witness :
  Qabs (-1) <= 5 /\ indexNew 5 0 (4 # 10) (-1) == 0.
Proof.
  assert (H : Qabs (-1) <= 5) by qconst.
  split; [exact H |].
  apply (slow_release_hysteresis 5 0 (4 # 10) (-1) H). qconst.
Defined.

Lemma indexNew_adjacent_witness :
  Qabs ((7 # 10) - inject_Z 0) < 1 /\
  exists k : Z, (k = 0 - 1 \/ k = 0 \/ k = 0 + 1)%Z /\
                indexNew 5 (inject_Z 0) (7 # 10) (-2) == inject_Z k.
Proof.
  assert (H : Qabs ((7 # 10) - inject_Z 0) < 1) by qconst.
  split; [exact H |].
  exact (indexNew_adjacent 5 0 (7 # 10) (-2) H).
Defined.

End Resolver.
