(* ===== verification/Css.v ===== *)
(** * Style objects and the CSS text the component writes

    The [styles] constant (lines 9-21 of [src/src/index.js]) and the
    container style [objectAssign({WebkitTransform, transform, height},
    styles.container, style)] of [renderContainer] (lines 215-219).  A JS
    object used as a style is an association list whose keys are unique
    and kept in insertion order, as [Object.assign] (the [object-assign]
    package) writes them: an existing key is overwritten in place, a new
    key is appended, an [undefined] source is skipped.

    The transform is the template string [translate3d(-${x}%, 0, 0)]
    (line 216), whose [${x}] is JavaScript's [Number::toString].  The
    model prints a number as its decimal expansion with at most
    [max_frac_digits] fractional digits; that is [Number::toString] on the
    numbers whose shortest round-trip representation is a decimal in fixed
    notation, i.e. the values [x] with [1e-6 <= |x| < 1e21] (or [x = 0])
    printed with at most 20 fractional digits.  [parse_translate3d] reads
    back the horizontal translation the way a CSS parser reads a
    [translate3d(<percentage>, 0, 0)] value: an optional sign, digits, an
    optional fraction, [%]. *)

From Stdlib Require Import QArith Qround ZArith Lia Lqa List Bool String Ascii.
From Stdlib Require Decimal DecimalString DecimalN.
From S2P Require Import Prelude.
Import ListNotations.
Open Scope Q_scope.

Module Css.

(** ** Style objects *)

(** A CSS property value: a string, or a number (React appends [px] to
    the numeric lengths). *)
Inductive CssValue :=
| CssStr (s : string)
| CssNum (q : Q).

(** A style object: its own properties in key order. *)
Definition Style := list (string * CssValue).

(** [styles.root], [styles.container] and [styles.slide] (lines 9-21). *)
Definition styles_root : Style := [("overflowX", CssStr "hidden")]%string.
Definition styles_container : Style := [("display", CssStr "flex")]%string.
Definition styles_slide : Style :=
  [("width", CssStr "100%"); ("flexShrink", CssNum 0); ("overflow", CssStr "auto")]%string.

(** [o[k]]: the value of the property [k], [undefined] when absent. *)
Fixpoint style_get (k : string) (o : Style) : option CssValue :=
  match o with
  | [] => None
  | (k', v) :: o' => if String.eqb k k' then Some v else style_get k o'
  end.

(** [o[k] = v]: an existing key keeps its place, a new key is appended. *)
Fixpoint style_set (o : Style) (k : string) (v : CssValue) : Style :=
  match o with
  | [] => [(k, v)]
  | (k', v') :: o' =>
      if String.eqb k k' then (k', v) :: o' else (k', v') :: style_set o' k v
  end.

(** The copy loop of [Object.assign] for one source, in its key order. *)
Definition assign_from (o src : Style) : Style :=
  fold_left (fun acc kv => style_set acc (fst kv) (snd kv)) src o.

(** [objectAssign(target, ...sources)]: the sources in order, [undefined]
    ones skipped. *)
Definition objectAssign (target : Style) (sources : list (option Style)) : Style :=
  fold_left (fun acc s => match s with Some src => assign_from acc src | None => acc end)
            sources target.

(** A JS object has each key once. *)
Definition wf_style (o : Style) : Prop := NoDup (map fst o).

(** The reference reading of a sequence of property writes: the last
    write of [k] wins. *)
Fixpoint last_write (k : string) (l : list (string * CssValue)) : option CssValue :=
  match l with
  | [] => None
  | (k', v) :: l' =>
      match last_write k l' with
      | Some w => Some w
      | None => if String.eqb k k' then Some v else None
      end
  end.

(** The writes [objectAssign] performs, in order. *)
Definition writes (target : Style) (sources : list (option Style)) :
    list (string * CssValue) :=
  target ++ List.concat (map (fun s => match s with Some src => src | None => [] end) sources).

(** ** Numbers as text *)

(** The fractional digits printed at most. *)
Definition max_frac_digits : nat := 20.

(** The decimal digit [d] (in 0-9) in front of [u]. *)
Definition digit_cons (d : Z) (u : Decimal.uint) : Decimal.uint :=
  match d with
  | 0%Z => Decimal.D0 u | 1%Z => Decimal.D1 u | 2%Z => Decimal.D2 u
  | 3%Z => Decimal.D3 u | 4%Z => Decimal.D4 u | 5%Z => Decimal.D5 u
  | 6%Z => Decimal.D6 u | 7%Z => Decimal.D7 u | 8%Z => Decimal.D8 u
  | _ => Decimal.D9 u
  end.

(** The digits of a fraction [0 <= r < 1], until it is exhausted. *)
Fixpoint frac_digits (fuel : nat) (r : Q) : Decimal.uint :=
  match fuel with
  | O => Decimal.Nil
  | S f =>
      if Qeq_bool r 0 then Decimal.Nil
      else let d := Qfloor (r * 10) in digit_cons d (frac_digits f (r * 10 - inject_Z d))
  end.

Abbreviation uint_string := DecimalString.NilEmpty.string_of_uint.

(** The fraction part of the text: nothing, or [.] and the digits. *)
Definition frac_part (f : Decimal.uint) : string :=
  match f with Decimal.Nil => "" | _ => "." ++ uint_string f end%string.

(** [Number::toString] of a non-negative number: the integer part, then
    the fraction when there is one. *)
Definition string_of_nonneg (x : Q) : string :=
  let z := Qfloor x in
  let f := frac_digits max_frac_digits (x - inject_Z z) in
  (uint_string (N.to_uint (Z.to_N z)) ++ frac_part f)%string.

(** [Number::toString]: a minus sign in front of a negative number. *)
Definition number_to_string (x : Q) : string :=
  if Qltb x 0 then ("-" ++ string_of_nonneg (- x))%string else string_of_nonneg x.

(** The template string [translate3d(-${x}%, 0, 0)] (line 216). *)
Definition translate_string (x : Q) : string :=
  ("translate3d(-" ++ number_to_string x ++ "%, 0, 0)")%string.

(** ** Reading a CSS translation back *)

(** The value of fractional digits [0.d1 d2 ...]. *)
Fixpoint frac_value (u : Decimal.uint) : Q :=
  match u with
  | Decimal.Nil => 0
  | Decimal.D0 u => frac_value u / 10
  | Decimal.D1 u => (1 + frac_value u) / 10
  | Decimal.D2 u => (2 + frac_value u) / 10
  | Decimal.D3 u => (3 + frac_value u) / 10
  | Decimal.D4 u => (4 + frac_value u) / 10
  | Decimal.D5 u => (5 + frac_value u) / 10
  | Decimal.D6 u => (6 + frac_value u) / 10
  | Decimal.D7 u => (7 + frac_value u) / 10
  | Decimal.D8 u => (8 + frac_value u) / 10
  | Decimal.D9 u => (9 + frac_value u) / 10
  end.

Fixpoint strip_prefix (p s : string) : option string :=
  match p, s with
  | EmptyString, _ => Some s
  | String a p', String b s' => if Ascii.eqb a b then strip_prefix p' s' else None
  | String _ _, EmptyString => None
  end.

(** The longest run of digits at the front of [s], and the rest. *)
Fixpoint read_digits (s : string) : Decimal.uint * string :=
  match s with
  | EmptyString => (Decimal.Nil, EmptyString)
  | String c s' =>
      let r := read_digits s' in
      match DecimalString.uint_of_char c (Some (fst r)) with
      | Some u => (u, snd r)
      | None => (Decimal.Nil, s)
      end
  end.

Definition read_sign (s : string) : Q * string :=
  match s with
  | String c s' =>
      if Ascii.eqb c "-" then (-1, s') else if Ascii.eqb c "+" then (1, s') else (1, s)
  | EmptyString => (1, s)
  end.

(** An optional [.] followed by at least one digit. *)
Definition read_fraction (s : string) : option (Decimal.uint * string) :=
  match s with
  | String c s' =>
      if Ascii.eqb c "." then
        let r := read_digits s' in
        match fst r with Decimal.Nil => None | _ => Some r end
      else Some (Decimal.Nil, s)
  | EmptyString => Some (Decimal.Nil, s)
  end.

Definition uint_is_nil (u : Decimal.uint) : bool :=
  match u with Decimal.Nil => true | _ => false end.

(** A CSS [<number>] without exponent: sign, integer digits, fraction, at
    least one digit in all. *)
Definition read_number (s : string) : option (Q * string) :=
  let '(sg, s1) := read_sign s in
  let '(i, s2) := read_digits s1 in
  match read_fraction s2 with
  | Some (f, s3) =>
      if uint_is_nil i && uint_is_nil f then None
      else Some (sg * (inject_Z (Z.of_N (N.of_uint i)) + frac_value f), s3)
  | None => None
  end.

(** The horizontal translation, in percent, of [translate3d(<x>%, 0, 0)];
    [None] when a CSS parser rejects the value. *)
Definition parse_translate3d (s : string) : option Q :=
  match strip_prefix "translate3d(" s with
  | Some s1 =>
      match read_number s1 with
      | Some (x, s2) =>
          match strip_prefix "%, 0, 0)" s2 with
          | Some EmptyString => Some x
          | _ => None
          end
      | None => None
      end
  | None => None
  end.

(** ** Lemmas on style objects *)

Lemma style_get_set_eq o k v : style_get k (style_set o k v) = Some v.
Proof.
  induction o as [| [k' v'] o IH]; simpl; [now rewrite String.eqb_refl |].
  destruct (String.eqb k k') eqn:E; simpl; rewrite E; [reflexivity | exact IH].
Qed.

Lemma style_get_set_neq o k k' v :
  k <> k' -> style_get k (style_set o k' v) = style_get k o.
Proof.
  intros Hne. induction o as [| [k'' v'] o IH]; simpl.
  - apply String.eqb_neq in Hne. now rewrite Hne.
  - destruct (String.eqb k' k'') eqn:E; simpl.
    + apply String.eqb_eq in E. subst k''.
      apply String.eqb_neq in Hne. now rewrite Hne.
    + destruct (String.eqb k k''); [reflexivity | exact IH].
Qed.

Lemma style_get_set o k k' v :
  style_get k (style_set o k' v) = if String.eqb k k' then Some v else style_get k o.
Proof.
  destruct (String.eqb k k') eqn:E.
  - apply String.eqb_eq in E. subst. apply style_get_set_eq.
  - apply String.eqb_neq in E. now apply style_get_set_neq.
Qed.

Lemma style_set_keys o k v :
  map fst (style_set o k v) =
    if existsb (String.eqb k) (map fst o) then map fst o else map fst o ++ [k].
Proof.
  induction o as [| [k' v'] o IH]; simpl; [reflexivity |].
  destruct (String.eqb k k') eqn:E; simpl; [reflexivity |].
  rewrite IH. now destruct existsb.
Qed.

Lemma style_set_wf o k v : wf_style o -> wf_style (style_set o k v).
Proof.
  unfold wf_style. intros H. rewrite style_set_keys.
  destruct (existsb (String.eqb k) (map fst o)) eqn:E; [exact H |].
  apply NoDup_app; [exact H | constructor; [intros [] | constructor] |].
  intros x Hx [Hk | []]. subst x.
  assert (Hf : existsb (String.eqb k) (map fst o) = true)
    by (apply existsb_exists; exists k; split; [exact Hx | apply String.eqb_refl]).
  congruence.
Qed.

Lemma assign_from_wf o src : wf_style o -> wf_style (assign_from o src).
Proof.
  unfold assign_from. revert o.
  induction src as [| [k v] src IH]; intros o H; simpl; [exact H |].
  apply IH, style_set_wf, H.
Qed.

Lemma last_write_app k l1 l2 :
  last_write k (l1 ++ l2) =
    match last_write k l2 with Some w => Some w | None => last_write k l1 end.
Proof.
  induction l1 as [| [k' v] l1 IH]; simpl.
  - now destruct (last_write k l2).
  - rewrite IH. now destruct (last_write k l2).
Qed.

Lemma assign_from_get k o src :
  style_get k (assign_from o src) =
    match last_write k src with Some w => Some w | None => style_get k o end.
Proof.
  unfold assign_from. revert o.
  induction src as [| [k' v] src IH]; intros o; simpl; [reflexivity |].
  rewrite IH, style_get_set.
  destruct (last_write k src); [reflexivity |].
  now destruct (String.eqb k k').
Qed.

(** On a well-formed object the first binding is the only one. *)
Lemma style_get_wf k o : wf_style o -> style_get k o = last_write k o.
Proof.
  unfold wf_style. induction o as [| [k' v] o IH]; intros H; simpl; [reflexivity |].
  inversion H as [| ? ? Hnin Hnd]; subst. rewrite (IH Hnd).
  destruct (String.eqb k k') eqn:E; [| now destruct (last_write k o)].
  apply String.eqb_eq in E. subst k'.
  assert (Hn : last_write k o = None).
  { clear IH Hnd H. induction o as [| [k'' v''] o IHo]; simpl; [reflexivity |].
    simpl in Hnin. rewrite IHo by tauto.

    destruct (String.eqb k k'') eqn:E; [| reflexivity].
    apply String.eqb_eq in E. subst. tauto. }
  now rewrite Hn.
Qed.

Lemma objectAssign_get_gen k o sources :
  style_get k (objectAssign o sources) =
    match last_write k (List.concat (map (fun s => match s with Some src => src | None => [] end)
                                         sources)) with
    | Some w => Some w
    | None => style_get k o
    end.
Proof.
  unfold objectAssign. revert o.
  induction sources as [| [src |] sources IH]; intros o; simpl; [reflexivity | |].
  - rewrite IH, last_write_app, assign_from_get.
    now destruct (last_write k (List.concat _)).
  - apply IH.
Qed.

(** ** Lemmas on the printer and the parser *)

(** [10^n], the scale at which a number has no fraction left. *)
Definition pow10 (n : nat) : Q := inject_Z (10 ^ Z.of_nat n).

Lemma pow10_S n : pow10 (S n) == 10 * pow10 n.
Proof.
  unfold pow10. rewrite Nat2Z.inj_succ, Z.pow_succ_r by lia.
  now rewrite inject_Z_mult.
Qed.

(** [s] does not start with a digit. *)
Definition no_digit_head (s : string) : Prop :=
  match s with
  | String c _ => forall u, DecimalString.uint_of_char c (Some u) = None
  | EmptyString => True
  end.

Lemma read_digits_app u s :
  no_digit_head s -> read_digits (uint_string u ++ s) = (u, s).
Proof.
  intros Hs.
  induction u; cbn [DecimalString.NilEmpty.string_of_uint append read_digits];
    try (rewrite IHu; reflexivity).
  destruct s as [| c s']; [reflexivity |]. cbn [read_digits]. now rewrite (Hs _).
Qed.

Lemma N_to_uint_not_nil n : uint_is_nil (N.to_uint n) = false.
Proof.
  destruct (N.to_uint n) eqn:E; try reflexivity.
  pose proof (DecimalN.Unsigned.of_to n) as H. rewrite E in H. subst n. discriminate.
Qed.

Lemma frac_value_digit_cons d u :
  (0 <= d <= 9)%Z -> frac_value (digit_cons d u) == (inject_Z d + frac_value u) / 10.
Proof.
  intros Hd.
  assert (d = 0 \/ d = 1 \/ d = 2 \/ d = 3 \/ d = 4 \/ d = 5 \/ d = 6 \/ d = 7 \/
          d = 8 \/ d = 9)%Z as Hc by lia.
  repeat destruct Hc as [-> | Hc]; try (subst d); cbn [digit_cons frac_value];
    unfold Qdiv; ring.
Qed.

(** The printed fraction has the value of the fraction, when the fraction
    ends within the digits printed. *)
Lemma frac_digits_value fuel r :
  0 <= r < 1 -> is_int (r * pow10 fuel) = true -> frac_value (frac_digits fuel r) == r.
Proof.
  revert r. induction fuel as [| f IH]; intros r Hr Hint; apply is_int_spec in Hint as [z Hz].
  - unfold pow10 in Hz. simpl in Hz. rewrite Qmult_1_r in Hz.
    assert (Hz0 : (0 <= z < 1)%Z).
    { rewrite Hz in Hr. split; [rewrite Zle_Qle | rewrite Zlt_Qlt];
        change (inject_Z 0) with 0; change (inject_Z 1) with 1; lra. }
    assert (z = 0)%Z as -> by lia. simpl. rewrite Hz. reflexivity.
  - cbn [frac_digits]. destruct (Qeq_bool r 0) eqn:E0.
    + apply Qeq_bool_iff in E0. simpl. now rewrite E0.
    + set (d := Qfloor (r * 10)).
      pose proof (Qfloor_le (r * 10)) as H1. pose proof (Qlt_floor (r * 10)) as H2.
      fold d in H1, H2. rewrite inject_Z_plus in H2. change (inject_Z 1) with 1 in H2.
      assert (Hd : (0 <= d <= 9)%Z).
      { split; [apply Qfloor_ge_Z; change (inject_Z 0) with 0; lra |].
        assert (d < 10)%Z; [rewrite Zlt_Qlt; change (inject_Z 10) with 10; lra | lia]. }
      rewrite frac_value_digit_cons, IH by
        (try exact Hd; try lra;
         apply is_int_spec; exists (z - d * 10 ^ Z.of_nat f)%Z;
         rewrite inject_Z_sub, inject_Z_mult, <- Hz, pow10_S; unfold pow10; ring).
      field.
Qed.

Lemma string_app_assoc (a b c : string) : ((a ++ b) ++ c = a ++ (b ++ c))%string.
Proof. induction a as [| x a IH]; simpl; [reflexivity | now rewrite IH]. Qed.

Lemma frac_part_head f t : no_digit_head (frac_part f ++ String "%" t).
Proof. destruct f; intros u; reflexivity. Qed.

Lemma read_fraction_frac_part f t :
  read_fraction (frac_part f ++ String "%" t) = Some (f, String "%" t).
Proof.
  destruct f; try reflexivity; cbn [frac_part append read_fraction Ascii.eqb Bool.eqb];
    cbn [read_digits]; rewrite read_digits_app by (intros u; reflexivity); reflexivity.
Qed.

(** Reading a printed non-negative number, after a minus sign, gives its
    opposite, when its fraction ends within the digits printed. *)
Lemma read_number_neg x t :
  0 <= x -> is_int (x * pow10 max_frac_digits) = true ->
  exists y, read_number ("-" ++ string_of_nonneg x ++ String "%" t)%string =
              Some (y, String "%" t) /\ y == - x.
Proof.
  intros Hx Hint. unfold string_of_nonneg.
  set (z := Qfloor x). set (F := frac_digits max_frac_digits (x - inject_Z z)).
  assert (HF : frac_value F == x - inject_Z z).
  { pose proof (Qfloor_le x) as H1. pose proof (Qlt_floor x) as H2.
    rewrite inject_Z_plus in H2. change (inject_Z 1) with 1 in H2. fold z in H1, H2.
    apply frac_digits_value; [lra |].
    apply is_int_spec in Hint as [w Hw].
    apply is_int_spec. exists (w - z * 10 ^ Z.of_nat max_frac_digits)%Z.
    rewrite inject_Z_sub, inject_Z_mult, <- Hw. unfold pow10. ring. }
  assert (Hz : (0 <= z)%Z) by (apply Qfloor_ge_Z; exact Hx).
  unfold read_number. rewrite string_app_assoc.
  cbn [append read_sign Ascii.eqb Bool.eqb]. cbv beta iota.
  rewrite read_digits_app by apply frac_part_head. cbv beta iota.
  rewrite read_fraction_frac_part, N_to_uint_not_nil. simpl andb. cbv iota.
  eexists; split; [reflexivity |].
  rewrite DecimalN.Unsigned.of_to, Z2N.id by exact Hz. rewrite HF. ring.
Qed.

(** [objectAssign] implements the reference semantics of a sequence of
    property writes: on a target whose keys are unique, every property of
    the result is the last value written to it by the target and the
    defined sources, in order. *)
Lemma objectAssign_last_write k target sources :
  wf_style target ->
  style_get k (objectAssign target sources) = last_write k (writes target sources).
Proof.
  intros H. unfold writes.
  rewrite objectAssign_get_gen, last_write_app, (style_get_wf k target H).
  reflexivity.
Qed.

(** [objectAssign] keeps a style a JS object: from a target with unique
    keys, the result has unique keys, whatever the sources hold. *)
Lemma objectAssign_wf target sources :
  wf_style target -> wf_style (objectAssign target sources).
Proof.
  unfold objectAssign. revert target.
  induction sources as [| [src |] sources IH]; intros target H; simpl; [exact H | |].
  - apply IH, assign_from_wf, H.
  - apply IH, H.
Qed.

(** The template on a negative number: two minus signs. *)
Lemma translate_string_neg x :
  x < 0 -> translate_string x = ("translate3d(--" ++ string_of_nonneg (- x) ++ "%, 0, 0)")%string.
Proof.
  intros Hx. unfold translate_string, number_to_string.
  destruct (Qltb_spec x 0); [reflexivity | lra].
Qed.

(** A CSS number has at most one sign. *)
Lemma parse_doubled_minus s : parse_translate3d ("translate3d(--" ++ s)%string = None.
Proof. reflexivity. Qed.

(** ** Properties of the transform text *)

(** C27: round trip of the transform: for a non-negative translation whose
    decimal expansion ends within the digits printed, the text
    [translate3d(-${x}%, 0, 0)] is a valid CSS value whose horizontal
    translation is [-x] percent. *)
Theorem translate_string_roundtrip x :
  0 <= x -> is_int (x * pow10 max_frac_digits) = true ->
  exists y, parse_translate3d (translate_string x) = Some y /\ y == - x.
Proof.
  intros Hx Hint.
  destruct (read_number_neg x ", 0, 0)" Hx Hint) as (y & Hy & Hyx).
  exists y. split; [| exact Hyx].
  unfold translate_string, number_to_string.
  destruct (Qltb_spec x 0); [lra |].
  cbn [append] in Hy. unfold parse_translate3d.
  cbn [append strip_prefix Ascii.eqb Bool.eqb]. rewrite Hy. reflexivity.
Qed.

(** C28: the transform of a negative translation is not CSS: the template
    puts its own minus sign in front of the number's, and the resulting
    [translate3d(--...%, 0, 0)] is rejected, so the browser keeps the
    previous transform. *)
Theorem translate_string_negative_rejected x :
  x < 0 -> parse_translate3d (translate_string x) = None.
Proof. intros Hx. rewrite translate_string_neg by exact Hx. apply parse_doubled_minus. Qed.

(** ** Witnesses *)

Local Open Scope string_scope.

Lemma translate_string_roundtrip_witness :
  0 <= 125 # 2 /\ is_int ((125 # 2) * pow10 max_frac_digits) = true /\
  exists y, parse_translate3d (translate_string (125 # 2)) = Some y /\ y == - (125 # 2).
Proof.
  assert (H1 : 0 <= 125 # 2) by (vm_compute; discriminate).
  assert (H2 : is_int ((125 # 2) * pow10 max_frac_digits) = true) by reflexivity.
  split; [exact H1 | split; [exact H2 | exact (translate_string_roundtrip _ H1 H2)]].
Defined.

Lemma translate_string_negative_rejected_witness :
  -100 < 0 /\ parse_translate3d (translate_string (-100)) = None.
Proof.
  assert (H : -100 < 0) by reflexivity.
  split; [exact H | exact (translate_string_negative_rejected _ H)].
Defined.

End Css.
