(* ===== verification/Controller.v ===== *)
(** * The component: state, handlers, lifecycle and event runs

    [Component] gathers what [SwipeableViews] keeps between events: its
    props, its React state ([getInitialState], lines 68-75) and the instance
    fields of the current drag session ([None] before the first
    [touchstart]).  Each handler and lifecycle method of [src/src/index.js]
    is one Definition; [dispatch] is React delivering one event, with the
    touch handlers attached only when [disabled] is false (lines 242-246);
    [run] delivers a sequence of events and collects the arguments of the
    [onChangeIndex] calls.  [setState] is modelled as applied before the
    next event, which is what React guarantees between two events. *)

From Stdlib Require Import QArith Qabs Lqa ZArith Lia Bool List.
From S2P Require Import Prelude Gesture Resolver Css.
Import ListNotations.
Open Scope Q_scope.

Module Controller.
Import Gesture Resolver Css.

(** A child element, as far as the component uses it: the [clientHeight]
    of the first DOM element of its slide, when it has one. *)
Record Child := mkChild { clientHeight : option Q }.

(** The props ([propTypes], lines 24-57; [index] already defaulted to 0 and
    [threshold] to 5 by [getDefaultProps], lines 61-67).  [onChangeIndex]
    records whether the host passed the callback; [style_prop] is the
    [style] prop, [None] when the host passes none. *)
Record Props := mkProps {
  children : list Child;
  disabled : bool;
  index_prop : Q;
  onChangeIndex : bool;
  threshold : Q;
  style_prop : option Style
}.

(** The React state. *)
Record State := mkState {
  index : Q;
  targetIndex : Q;
  isDragging : bool;
  isFirstRender : bool
}.

Record Component := mkComponent {
  props : Props;
  state : State;
  session : option Session
}.

(** [getDefaultProps]: the props of a host that only passes children. *)
Definition getDefaultProps (cs : list Child) : Props :=
  {| children := cs; disabled := false; index_prop := 0;
     onChangeIndex := false; threshold := 5; style_prop := None |}.

Definition getInitialState (p : Props) : State :=
  {| index := index_prop p; targetIndex := index_prop p;
     isDragging := false; isFirstRender := true |}.

(** The component right after construction. *)
Definition initial (p : Props) : Component :=
  {| props := p; state := getInitialState p; session := None |}.

Definition set_state (c : Component) (st : State) : Component :=
  {| props := props c; state := st; session := session c |}.

Definition set_session (c : Component) (s : Session) : Component :=
  {| props := props c; state := state c; session := Some s |}.

(** [componentDidMount] (lines 77-81). *)
Definition componentDidMount (c : Component) : Component :=
  let st := state c in
  set_state c {| index := index st; targetIndex := targetIndex st;
                 isDragging := isDragging st; isFirstRender := false |}.

(** [componentWillReceiveProps] (lines 82-92): the state index follows the
    [index] prop only when the prop changed. *)
Definition componentWillReceiveProps (c : Component) (next : Props) : Component :=
  let st := state c in
  let st' := if negb (Qeq_bool (index_prop next) (index_prop (props c)))
             then {| index := index_prop next; targetIndex := targetIndex st;
                     isDragging := isDragging st; isFirstRender := isFirstRender st |}
             else st in
  {| props := next; state := st'; session := session c |}.

(** [handleTouchStart] on the component: the width of its DOM node is
    [width]. *)
Definition touchStart (c : Component) (t : Touch) (width : Q) : Component :=
  set_session c (handleTouchStart width (index (state c)) t).

(** [handleTouchMove] on the component. *)
Definition touchMove (c : Component) (t : Touch) : Component :=
  match session c with
  | None => c
  | Some s =>
      let '(s', r) := handleTouchMove (length (children (props c))) s t in
      match r with
      | Scrolled => set_session c s'
      | Dragged i =>
          let st := state c in
          {| props := props c;
             state := {| index := i; targetIndex := targetIndex st;
                         isDragging := true; isFirstRender := isFirstRender st |};
             session := Some s' |}
      end
  end.

(** [handleTouchEnd] (lines 139-171): the new component and the arguments
    of the [onChangeIndex] calls it made. *)
Definition handleTouchEnd (c : Component) : Component * list Q :=
  match session c with
  | None => (c, [])
  | Some s =>
      match isScroll s with
      | Some true => (c, [])
      | _ =>
          let st := state c in
          let i := indexNew (threshold (props c)) (startIndex s) (index st) (deltaX s) in
          (set_state c {| index := i; targetIndex := i; isDragging := false;
                          isFirstRender := isFirstRender st |},
           if onChangeIndex (props c) && negb (Qeq_bool i (startIndex s))
           then [i] else [])
      end
  end.

(** The events React delivers to the component. *)
Inductive Event :=
| TouchStart (t : Touch) (width : Q)
| TouchMove (t : Touch)
| TouchEnd
| TouchCancel
| ReceiveProps (p : Props)
| DidMount.

(** One event.  The touch handlers are attached only when [disabled] is
    false; the component has no [onTouchCancel] handler. *)
Definition dispatch (c : Component) (e : Event) : Component * list Q :=
  match e with
  | TouchStart t w => if disabled (props c) then (c, []) else (touchStart c t w, [])
  | TouchMove t => if disabled (props c) then (c, []) else (touchMove c t, [])
  | TouchEnd => if disabled (props c) then (c, []) else handleTouchEnd c
  | TouchCancel => (c, [])
  | ReceiveProps p => (componentWillReceiveProps c p, [])
  | DidMount => (componentDidMount c, [])
  end.

(** A sequence of events, with all the [onChangeIndex] calls in order. *)
Fixpoint run (c : Component) (es : list Event) : Component * list Q :=
  match es with
  | [] => (c, [])
  | e :: es' =>
      let '(c1, o1) := dispatch c e in
      let '(c2, o2) := run c1 es' in
      (c2, o1 ++ o2)
  end.

(** The events of one gesture of a single finger: a [touchstart] on a node
    of width [w], the moves, and the [touchend]. *)
Definition gesture (t : Touch) (w : Q) (moves : list Touch) : list Event :=
  TouchStart t w :: map TouchMove moves ++ [TouchEnd].

(** The state between gestures: the index and the target index are slides,
    nothing is dragging. *)
Definition idle (n : nat) (c : Component) : bool :=
  Nat.eqb (length (children (props c))) n &&
  slide_index n (index (state c)) && slide_index n (targetIndex (state c)) &&
  negb (isDragging (state c)).

(** The states a component with [n] children reaches from its creation by
    mounting, complete single-finger gestures on a node of positive width,
    and prop updates that keep [n] children and pass a slide as index. *)
Inductive reachable (n : nat) : Component -> Prop :=
| reach_initial p :
    length (children p) = n -> slide_index n (index_prop p) = true ->
    reachable n (initial p)
| reach_mount c : reachable n c -> reachable n (fst (dispatch c DidMount))
| reach_gesture c t w moves :
    reachable n c -> 0 < w -> reachable n (fst (run c (gesture t w moves)))
| reach_props c p :
    reachable n c -> length (children p) = n -> slide_index n (index_prop p) = true ->
    reachable n (fst (dispatch c (ReceiveProps p))).

(** ** Runs of events *)

Lemma run_app c es1 es2 :
  run c (es1 ++ es2) =
  let '(c1, o1) := run c es1 in let '(c2, o2) := run c1 es2 in (c2, o1 ++ o2).
Proof.
  revert c. induction es1 as [| e es1 IH]; intros c; simpl.
  - now destruct (run c es2).
  - destruct (dispatch c e) as [c1 o1]. rewrite IH.
    destruct (run c1 es1) as [c2 o2]. destruct (run c2 es2) as [c3 o3].
    now rewrite app_assoc.
Qed.

Lemma touchMove_props c t : props (touchMove c t) = props c.
Proof.
  unfold touchMove. destruct (session c); [| reflexivity].
  destruct handleTouchMove as [s' []]; reflexivity.
Qed.

Lemma fold_touchMove_props ms c : props (fold_left touchMove ms c) = props c.
Proof.
  revert c. induction ms as [| t ms IH]; intros c; simpl; [reflexivity |].
  now rewrite IH, touchMove_props.
Qed.

(** Moves on an enabled component produce no call and fold [touchMove]. *)
Lemma run_moves c ms es :
  disabled (props c) = false ->
  run c (map TouchMove ms ++ es) = run (fold_left touchMove ms c) es.
Proof.
  revert c. induction ms as [| t ms IH]; intros c Hd; simpl; [reflexivity |].
  rewrite Hd, IH by (now rewrite touchMove_props). now destruct run.
Qed.

(** A gesture on an enabled component: the start, the moves, and the end. *)
Lemma run_gesture c t w ms :
  disabled (props c) = false ->
  run c (gesture t w ms) = handleTouchEnd (fold_left touchMove ms (touchStart c t w)).
Proof.
  intros Hd. unfold gesture. simpl. rewrite Hd, run_moves by exact Hd.
  simpl. rewrite fold_touchMove_props. simpl. rewrite Hd.
  destruct handleTouchEnd as [c' o]. now rewrite !app_nil_r.
Qed.

(** A gesture on a disabled component does nothing. *)
Lemma run_gesture_disabled c t w ms :
  disabled (props c) = true -> run c (gesture t w ms) = (c, []).
Proof.
  intros Hd. unfold gesture. simpl. rewrite Hd.
  induction ms as [| m ms IH]; simpl; rewrite Hd; [reflexivity |].
  now rewrite IH.
Qed.

(** ** The state during a gesture *)

(** What holds of [c] during a gesture that started from [c0]: the props,
    the target index and the first-render flag are those of [c0], the
    session started at the index of [c0], the state is that of [c0] until
    the session is decided as a swipe, and the index stays in
    [0, childCount - 1]. *)
Definition dragging_ok (n : nat) (c0 c : Component) : Prop :=
  props c = props c0 /\ targetIndex (state c) = targetIndex (state c0) /\
  isFirstRender (state c) = isFirstRender (state c0) /\
  exists s, session c = Some s /\ startIndex s = index (state c0) /\
    (isScroll s <> Some false -> state c = state c0) /\
    0 <= index (state c) <= last_index n.

Lemma dragging_ok_intro n c0 c s :
  props c = props c0 -> targetIndex (state c) = targetIndex (state c0) ->
  isFirstRender (state c) = isFirstRender (state c0) ->
  session c = Some s -> startIndex s = index (state c0) ->
  (isScroll s <> Some false -> state c = state c0) ->
  0 <= index (state c) <= last_index n -> dragging_ok n c0 c.
Proof. unfold dragging_ok. intros. repeat split; auto. eauto 6. Qed.

Lemma idle_spec n c :
  idle n c = true <->
  length (children (props c)) = n /\ slide_index n (index (state c)) = true /\
  slide_index n (targetIndex (state c)) = true /\ isDragging (state c) = false.
Proof.
  unfold idle. rewrite !andb_true_iff, Nat.eqb_eq, negb_true_iff. tauto.
Qed.

Lemma touchStart_ok n c t w :
  idle n c = true -> dragging_ok n c (touchStart c t w).
Proof.
  rewrite idle_spec. intros (_ & Hi & _ & _).
  apply (dragging_ok_intro n c _ (handleTouchStart w (index (state c)) t));
    try reflexivity.
  now apply slide_index_range.
Qed.

Lemma touchMove_ok n c0 c t :
  length (children (props c0)) = n -> (1 <= n)%nat ->
  dragging_ok n c0 c -> dragging_ok n c0 (touchMove c t).
Proof.
  intros Hlen Hn (Hp & Ht & Hf & s & Hs & Hsi & Hsc & Hr).
  unfold touchMove. rewrite Hs, Hp, Hlen.
  pose proof (handleTouchMove_startIndex n s t) as Hsi'.
  destruct (handleTouchMove_result n s t)
    as [(Hres & Hnf & Hsc') | (i & Hres & Hsc')];
  destruct (handleTouchMove n s t) as [s' r] eqn:E; simpl in *; subst r.
  - apply (dragging_ok_intro n c0 _ s'); simpl; auto; try congruence.
  - apply (dragging_ok_intro n c0 _ s'); simpl; auto; try congruence.
    rewrite (handleTouchMove_dragged n s t i ltac:(now rewrite E)). auto with swipe.
Qed.

Lemma fold_touchMove_ok n c0 c ms :
  length (children (props c0)) = n -> (1 <= n)%nat ->
  dragging_ok n c0 c -> dragging_ok n c0 (fold_left touchMove ms c).
Proof.
  intros Hlen Hn. revert c. induction ms as [| t ms IH]; intros c H; simpl; auto.
  apply IH, touchMove_ok; assumption.
Qed.

Lemma touchEnd_idle n c0 c :
  idle n c0 = true -> dragging_ok n c0 c -> idle n (fst (handleTouchEnd c)) = true.
Proof.
  intros Hidle (Hp & Ht & Hf & s & Hs & Hsi & Hsc & Hr).
  pose proof Hidle as (Hlen & Hi & Htg & Hdr)%idle_spec.
  unfold handleTouchEnd. rewrite Hs.
  destruct (isScroll s) as [[|]|] eqn:Esc.
  1: apply idle_spec; simpl; rewrite (Hsc ltac:(congruence)), Hp;
     now apply idle_spec.
  all: apply idle_spec; cbn [fst set_state state props index targetIndex isDragging];
    rewrite Hp;
    assert (Hs' : slide_index n (indexNew (threshold (props c0)) (startIndex s)
                                          (index (state c)) (deltaX s)) = true)
      by (destruct (indexNew_int_range n (threshold (props c0)) (startIndex s)
                      (index (state c)) (deltaX s) ltac:(now rewrite Hsi) Hr) as [H1 H2];
          now apply slide_index_intro);
    repeat split; auto.
Qed.

(** A complete gesture from an idle state ends idle. *)
Lemma gesture_idle n c t w ms :
  idle n c = true -> idle n (fst (run c (gesture t w ms))) = true.
Proof.
  intros H. destruct (disabled (props c)) eqn:Hd.
  - now rewrite run_gesture_disabled.
  - rewrite run_gesture by exact Hd.
    pose proof H as (Hlen & Hi & _)%idle_spec.
    apply (touchEnd_idle n c); [exact H |].
    apply fold_touchMove_ok; [exact Hlen | exact (slide_index_pos n _ Hi) |].
    apply touchStart_ok. exact H.
Qed.

(** ** Properties *)

(** The invariant of the reachable states, unpacked. *)
Lemma reachable_inv n c :
  reachable n c ->
  length (children (props c)) = n /\ slide_index n (index (state c)) = true /\
  slide_index n (targetIndex (state c)) = true /\ isDragging (state c) = false.
Proof.
  intros H. apply idle_spec.
  induction H as [p Hl Hi | c _ IH | c t w ms _ IH _ | c p _ IH Hl Hi].
  - apply idle_spec. simpl. auto.
  - apply idle_spec in IH. apply idle_spec. simpl. exact IH.
  - now apply gesture_idle.
  - apply idle_spec in IH as (_ & Hix & Htg & Hdr). apply idle_spec. simpl.
    destruct negb; simpl; auto.
Qed.

(** C1: in every state reachable by mounting, complete single-finger
    gestures and prop updates that pass a slide, the index and the target
    index are slides of [0, childCount - 1] and nothing is dragging. *)
Theorem reachable_idle n c : reachable n c -> idle n c = true.
Proof. intros H. apply idle_spec, reachable_inv, H. Qed.

(** C5: a complete gesture from an idle state calls [onChangeIndex] once,
    with the new index, when the host passed the callback and the index
    changed, and never otherwise (scroll gestures and aborted drags
    included). *)
Theorem gesture_notification n c t w ms :
  idle n c = true ->
  snd (run c (gesture t w ms)) =
    if onChangeIndex (props c) &&
       negb (Qeq_bool (index (state (fst (run c (gesture t w ms))))) (index (state c)))
    then [index (state (fst (run c (gesture t w ms))))] else [].
Proof.
  intros Hidle. destruct (disabled (props c)) eqn:Hd.
  - rewrite run_gesture_disabled by exact Hd. simpl.
    now rewrite Qeq_bool_refl, andb_false_r.
  - rewrite run_gesture by exact Hd.
    pose proof Hidle as (Hlen & Hi & _)%idle_spec.
    destruct (fold_touchMove_ok n (touchStart c t w) (touchStart c t w) ms
                (eq_trans (f_equal (fun p => length (children p)) eq_refl) Hlen)
                (slide_index_pos n _ Hi) (touchStart_ok n c t w Hidle))
      as (Hp & _ & _ & s & Hs & Hsi & Hsc & _).
    simpl in Hp, Hsi, Hsc.
    unfold handleTouchEnd. rewrite Hs.
    destruct (isScroll s) as [[|]|] eqn:E; simpl.
    + rewrite (Hsc ltac:(congruence)). simpl.
      now rewrite Qeq_bool_refl, andb_false_r.
    + now rewrite Hp, Hsi.
    + now rewrite Hp, Hsi.
Qed.

Lemma fold_touchMove_scroll c s ms :
  session c = Some s -> isScroll s = Some true -> fold_left touchMove ms c = c.
Proof.
  intros Hs Hsc. induction ms as [| t ms IH]; simpl; [reflexivity |].
  unfold touchMove at 2. rewrite Hs.
  replace (handleTouchMove _ s t) with (s, Scrolled)
    by (unfold handleTouchMove; now rewrite (scroll_test_keep s t true Hsc), Hsc).
  replace (set_session c s) with c; [exact IH |].
  destruct c as [p st ss]. simpl in Hs. now subst ss.
Qed.

(** C11: a gesture whose first move is more vertical than horizontal is a
    scroll: whatever the later moves, it leaves the state unchanged and
    calls nothing. *)
Theorem scroll_gesture_no_effect c t w m0 ms :
  Qabs (pageX t - pageX m0) < Qabs (pageY t - pageY m0) ->
  snd (run c (gesture t w (m0 :: ms))) = [] /\
  state (fst (run c (gesture t w (m0 :: ms)))) = state c.
Proof.
  intros Hv. destruct (disabled (props c)) eqn:Hd.
  - now rewrite run_gesture_disabled.
  - rewrite run_gesture by exact Hd. cbn [fold_left].
    set (s0 := handleTouchStart w (index (state c)) t).
    assert (Hs1 : isScroll (scroll_test s0 m0) = Some true)
      by (apply scroll_test_vertical; [reflexivity | exact Hv]).
    assert (Hm : touchMove (touchStart c t w) m0 = set_session c (scroll_test s0 m0)).
    { unfold touchMove, touchStart. cbn [session set_session props].
      rewrite first_move_vertical by (reflexivity || exact Hv). reflexivity. }
    rewrite Hm, (fold_touchMove_scroll _ (scroll_test s0 m0)) by (reflexivity || exact Hs1).
    unfold handleTouchEnd. cbn [session set_session]. rewrite Hs1. split; reflexivity.
Qed.

(** ** Frame conditions of the handlers *)

Lemma dispatch_isFirstRender c e :
  isFirstRender (state c) = false -> isFirstRender (state (fst (dispatch c e))) = false.
Proof.
  intros H.
  destruct e as [t w | t | | | p |]; cbn [dispatch];
    [destruct (disabled (props c)) .. | | |]; cbn [fst]; try exact H.
  - unfold touchMove. destruct (session c); [| exact H].
    destruct handleTouchMove as [s' []]; exact H.
  - unfold handleTouchEnd. destruct (session c) as [s |]; [| exact H].
    destruct (isScroll s) as [[|]|]; exact H.
  - unfold componentWillReceiveProps. simpl. destruct negb; exact H.
  - reflexivity.
Qed.

Lemma handleTouchEnd_keeps_props c : props (fst (handleTouchEnd c)) = props c.
Proof.
  unfold handleTouchEnd. destruct (session c) as [s |]; [| reflexivity].
  destruct (isScroll s) as [[|]|]; reflexivity.
Qed.

(** Only [componentWillReceiveProps] changes the props. *)
Lemma dispatch_props c e :
  (forall p, e <> ReceiveProps p) -> props (fst (dispatch c e)) = props c.
Proof.
  intros H.
  destruct e as [t w | t | | | p |]; cbn [dispatch];
    [destruct (disabled (props c)) .. | | |]; cbn [fst]; try reflexivity.
  - apply touchMove_props.
  - apply handleTouchEnd_keeps_props.
  - exfalso. exact (H p eq_refl).
Qed.

(** ** Witnesses *)

(** A host with three slides of heights 100, 200 and 300 that listens to
    [onChangeIndex] and shows slide 0. *)
Definition three_slides : Props :=
  {| children := [mkChild (Some 100); mkChild (Some 200); mkChild (Some 300)];
     disabled := false; index_prop := 0; onChangeIndex := true; threshold := 5;
     style_prop := None |}.

(** The mounted component. *)
Definition mounted : Component := fst (dispatch (initial three_slides) DidMount).

Lemma reachable_idle_witness :
  reachable 3 mounted /\ idle 3 mounted = true.
Proof.
  assert (H : reachable 3 mounted)
    by (apply reach_mount, reach_initial; reflexivity).
  split; [exact H | exact (reachable_idle 3 mounted H)].
Defined.

Lemma gesture_notification_witness :
  idle 3 mounted = true /\
  snd (run mounted (gesture (mkTouch 200 50) 100 [mkTouch 190 50; mkTouch 170 50])) =
    if onChangeIndex (props mounted) &&
       negb (Qeq_bool (index (state (fst (run mounted
               (gesture (mkTouch 200 50) 100 [mkTouch 190 50; mkTouch 170 50])))))
             (index (state mounted)))
    then [index (state (fst (run mounted
               (gesture (mkTouch 200 50) 100 [mkTouch 190 50; mkTouch 170 50]))))]
    else [].
Proof.
  assert (H : idle 3 mounted = true) by reflexivity.
  split; [exact H | exact (gesture_notification 3 mounted _ _ _ H)].
Defined.

Lemma scroll_gesture_no_effect_witness :
  Qabs (200 - 198) < Qabs (50 - 90) /\
  snd (run mounted (gesture (mkTouch 200 50) 100 [mkTouch 198 90; mkTouch 20 95])) = [] /\
  state (fst (run mounted (gesture (mkTouch 200 50) 100 [mkTouch 198 90; mkTouch 20 95]))) =
    state mounted.
Proof.
  assert (H : Qabs (200 - 198) < Qabs (50 - 90)) by qconst.
  split; [exact H |].
  exact (scroll_gesture_no_effect mounted (mkTouch 200 50) 100 (mkTouch 198 90)
           [mkTouch 20 95] H).
Defined.

End Controller.
