(* ===== verification/Scenarios.v ===== *)
(** * A tap, and a second finger during a drag

    [handleTouchStart] (lines 93-103 of [src/src/index.js]) starts a new
    session from [this.state.index] on every [touchstart], and
    [handleTouchEnd] (lines 139-171) resolves the release from that
    session.  A tap, a [touchstart] followed by the [touchend] with no
    move in between, therefore settles the component wherever its index
    is.  Between gestures that is a slide; during a drag, when a second
    finger lands, it is a fractional index, and the component comes to
    rest between two slides. *)

From Stdlib Require Import QArith Qabs Lqa ZArith Bool List.
From S2P Require Import Prelude Gesture Resolver Controller.
Import ListNotations.
Open Scope Q_scope.

Module Scenarios.
Import Gesture Resolver Controller.

(** A drag of half a slide on [Controller.mounted], the finger still down. *)
Definition half_drag : Component :=
  fst (run mounted [TouchStart (mkTouch 200 50) 100; TouchMove (mkTouch 150 50)]).

(** ** Lemmas *)

(** A release without a move, with a non-negative threshold, keeps the
    start index. *)
Lemma indexNew_no_move th i : 0 <= th -> indexNew th i i 0 = i.
Proof.
  intros Ht.
  assert (H0 : Qabs (i - i) == 0) by (unfold Qminus; rewrite Qplus_opp_r; reflexivity).
  destruct (indexNew_cases th i i 0) as [(H1 & _) | [(H1 & _) | [(_ & H2 & _) | (_ & _ & H)]]];
    [change (Qabs 0) with 0 in H1; lra | change (Qabs 0) with 0 in H1; lra | lra | exact H].
Qed.

(** ** Property *)

(** C25: a tap freezes the index where it is: on an enabled component with
    a non-negative threshold, a [touchstart] followed by a [touchend] sets
    [index] and [targetIndex] to the index the component had, ends any drag
    and calls nothing.  When that index is not a slide (a second finger
    landing during a drag and lifted at once), the component is left at
    rest between two slides, outside the idle states. *)
Theorem tap_keeps_index n c t w :
  disabled (props c) = false -> 0 <= threshold (props c) ->
  let r := run c [TouchStart t w; TouchEnd] in
  index (state (fst r)) = index (state c) /\ targetIndex (state (fst r)) = index (state c) /\
  isDragging (state (fst r)) = false /\ snd r = [] /\
  (slide_index n (index (state c)) = false -> idle n (fst r) = false).
Proof.
  intros Hd Ht r.
  assert (E : r = (set_state (touchStart c t w)
                     {| index := index (state c); targetIndex := index (state c);
                        isDragging := false; isFirstRender := isFirstRender (state c) |}, [])).
  { unfold r. cbn [run dispatch]. rewrite Hd. unfold touchStart, set_session.
    cbn [props]. rewrite Hd. unfold handleTouchEnd, handleTouchStart.
    cbn [session isScroll props state startIndex deltaX].
    rewrite (indexNew_no_move _ _ Ht), Qeq_bool_refl, andb_false_r. reflexivity. }
  rewrite E. cbn [fst snd state set_state index targetIndex isDragging].
  split; [reflexivity | split; [reflexivity | split; [reflexivity | split; [reflexivity |]]]].
  intros Hs. unfold idle. cbn [state set_state index]. now rewrite Hs, !andb_false_r.
Qed.

(** ** Witness *)

Lemma tap_keeps_index_witness :
  disabled (props half_drag) = false /\ 0 <= threshold (props half_drag) /\
  slide_index 3 (index (state half_drag)) = false /\
  idle 3 (fst (run half_drag [TouchStart (mkTouch 300 60) 100; TouchEnd])) = false.
Proof.
  assert (H1 : disabled (props half_drag) = false) by (vm_compute; reflexivity).
  assert (H2 : 0 <= threshold (props half_drag)) by (vm_compute; discriminate).
  assert (H3 : slide_index 3 (index (state half_drag)) = false) by (vm_compute; reflexivity).
  split; [exact H1 | split; [exact H2 | split; [exact H3 |]]].
  exact (proj2 (proj2 (proj2 (proj2 (tap_keeps_index 3 half_drag (mkTouch 300 60) 100 H1 H2))))
           H3).
Defined.

End Scenarios.
