(* ===== verification/Refinement.v ===== *)
(** * The component refines an abstract pager

    Seen from the host, a [SwipeableViews] with [n] slides is a pager: it
    shows one page [p] of [0, n - 1]; a gesture either leaves the page
    unchanged and says nothing, or moves to a page [p'] adjacent to the
    position [f] the drag reached (less than one slide away) and reports
    [p'] through [onChangeIndex], once.  [swipe_step] is that contract and
    [swipes] its sequences; the theorems show that every complete gesture,
    and every sequence of them, of a reachable component is such a step,
    under the abstraction [page c = Math.floor(state.index)]. *)

From Stdlib Require Import QArith Qround Qabs Lqa ZArith Lia Bool List.
From S2P Require Import Prelude Gesture Resolver Controller.
Import ListNotations.
Open Scope Q_scope.

Module Refinement.
Import Gesture Resolver Controller.

(** One step of the pager on [n] pages, for a drag that reached [f]. *)
Inductive swipe_step (n : nat) (f : Q) : Z -> Z -> list Q -> Prop :=
| swipe_stay p : swipe_step n f p p []
| swipe_move p p' q :
    (0 <= p' <= Z.of_nat n - 1)%Z -> p' <> p ->
    Qabs (inject_Z p' - f) < 1 -> q == inject_Z p' ->
    swipe_step n f p p' [q].

(** Sequences of pager steps, with the reports in order. *)
Inductive swipes (n : nat) : Z -> Z -> list Q -> Prop :=
| swipes_nil p : swipes n p p []
| swipes_cons p p1 p2 f o1 o2 :
    swipe_step n f p p1 o1 -> swipes n p1 p2 o2 -> swipes n p p2 (o1 ++ o2).

(** The page a component shows. *)
Definition page (c : Component) : Z := Qfloor (index (state c)).

(** The index the drag reached when the finger is lifted. *)
Definition release_index (c : Component) (t : Touch) (w : Q) (ms : list Touch) : Q :=
  index (state (fold_left touchMove ms (touchStart c t w))).

(** A gesture given by its start point, node width and moves. *)
Definition Gesture : Type := (Touch * Q * list Touch)%type.

Definition gesture_events (g : Gesture) : list Event :=
  let '(t, w, ms) := g in gesture t w ms.

Lemma slide_index_page n x :
  slide_index n x = true -> x == inject_Z (Qfloor x) /\
  (0 <= Qfloor x <= Z.of_nat n - 1)%Z.
Proof.
  intros H. apply slide_index_spec in H as ([z Hz] & H0 & H1).
  rewrite (Qfloor_comp _ _ Hz), Qfloor_Z. split; [exact Hz |].
  rewrite Hz in H0, H1. unfold last_index in H1.
  change 0 with (inject_Z 0) in H0. rewrite <- Zle_Qle in H0, H1. lia.
Qed.

(** The end of a drag that was decided as a swipe, as a pager step. *)
Lemma touchEnd_step n c0 c s :
  idle n c0 = true -> onChangeIndex (props c0) = true ->
  dragging_ok n c0 c -> session c = Some s -> isScroll s <> Some true ->
  swipe_step n (index (state c)) (page c0) (page (fst (handleTouchEnd c)))
             (snd (handleTouchEnd c)).
Proof.
  intros Hidle Hcb (Hp & _ & _ & s' & Hs' & Hsi & _ & Hr) Hs Hnot.
  rewrite Hs in Hs'. injection Hs' as <-.
  pose proof Hidle as (_ & Hi & _ & _)%idle_spec.
  assert (Hnew : slide_index n
     (indexNew (threshold (props c)) (startIndex s) (index (state c)) (deltaX s)) = true)
    by (destruct (indexNew_int_range n (threshold (props c)) (startIndex s)
                    (index (state c)) (deltaX s) ltac:(now rewrite Hsi) Hr) as [H1 H2];
        now apply slide_index_intro).
  set (i := indexNew (threshold (props c)) (startIndex s) (index (state c)) (deltaX s))
    in Hnew.
  assert (Hend : handleTouchEnd c =
    (set_state c {| index := i; targetIndex := i; isDragging := false;
                    isFirstRender := isFirstRender (state c) |},
     if onChangeIndex (props c) && negb (Qeq_bool i (startIndex s)) then [i] else [])).
  { unfold handleTouchEnd. rewrite Hs.
    destruct (isScroll s) as [[|]|] eqn:E; [congruence | reflexivity | reflexivity]. }
  rewrite Hend. unfold page. cbn [fst snd set_state state index].
  rewrite Hp, Hcb, Hsi. simpl.
  destruct (slide_index_page n _ Hnew) as [Hiz Hrange].
  destruct (slide_index_page n _ Hi) as [Hsz _].
  destruct (Qeq_bool_spec i (index (state c0))) as [Heq | Hne]; simpl.
  - rewrite (Qfloor_comp _ _ Heq). apply swipe_stay.
  - apply swipe_move; [exact Hrange | | | exact Hiz].
    + intros Hz. apply Hne. rewrite Hiz, Hsz, Hz. reflexivity.
    + rewrite <- Hiz. apply indexNew_near.
Qed.


Lemma gesture_props c t w ms : props (fst (run c (gesture t w ms))) = props c.
Proof.
  destruct (disabled (props c)) eqn:Hd.
  - now rewrite run_gesture_disabled.
  - rewrite run_gesture by exact Hd.
    now rewrite handleTouchEnd_keeps_props, fold_touchMove_props.
Qed.

(** One gesture from an idle state is a pager step. *)
Lemma gesture_step_idle n c t w ms :
  idle n c = true -> onChangeIndex (props c) = true ->
  swipe_step n (release_index c t w ms) (page c)
             (page (fst (run c (gesture t w ms)))) (snd (run c (gesture t w ms))).
Proof.
  intros Hidle Hcb.
  destruct (disabled (props c)) eqn:Hd.
  - rewrite run_gesture_disabled by exact Hd. apply swipe_stay.
  - rewrite run_gesture by exact Hd. unfold release_index.
    pose proof Hidle as (Hlen & Hi & _)%idle_spec.
    pose proof (fold_touchMove_ok n (touchStart c t w) (touchStart c t w) ms Hlen
                  (slide_index_pos n _ Hi) (touchStart_ok n c t w Hidle)) as Hok.
    set (c1 := fold_left touchMove ms (touchStart c t w)) in *.
    assert (Hok' : dragging_ok n c c1).
    { destruct Hok as (Hp & Ht & Hf & s & Hs & Hsi & Hsc & Hrg).
      apply (dragging_ok_intro n c c1 s); auto. }
    destruct Hok' as (Hp & _ & _ & s & Hs & _ & Hsc & _).
    destruct (isScroll s) as [[|]|] eqn:E.
    + assert (Hend : handleTouchEnd c1 = (c1, []))
        by (unfold handleTouchEnd; now rewrite Hs, E).
      rewrite Hend. unfold page. cbn [fst snd]. rewrite (Hsc ltac:(congruence)).
      apply swipe_stay.
    + apply (touchEnd_step n c c1 s); auto; congruence.
    + apply (touchEnd_step n c c1 s); auto; congruence.
Qed.

(** C2: refinement of one gesture: for a reachable component whose host
    listens to [onChangeIndex], every complete gesture is a step of the
    pager from the page shown before to the page shown after, with the
    calls it made as the reports, for the index the drag reached at
    release. *)
Theorem gesture_refines_swipe n c t w ms :
  reachable n c -> onChangeIndex (props c) = true ->
  swipe_step n (release_index c t w ms) (page c)
             (page (fst (run c (gesture t w ms)))) (snd (run c (gesture t w ms))).
Proof.
  intros Hr Hcb. apply gesture_step_idle; [apply idle_spec, reachable_inv, Hr | exact Hcb].
Qed.

(** C3: refinement of a session of gestures: for a reachable component whose
    host listens to [onChangeIndex], any sequence of complete gestures on
    nodes of positive width is a run of the pager, and the calls made are
    the pager's reports in order. *)
Theorem gestures_refine_swipes n c (gs : list Gesture) :
  reachable n c -> onChangeIndex (props c) = true ->
  Forall (fun g : Gesture => 0 < snd (fst g)) gs ->
  swipes n (page c) (page (fst (run c (flat_map gesture_events gs))))
         (snd (run c (flat_map gesture_events gs))).
Proof.
  intros Hr Hcb Hw. revert c Hr Hcb.
  induction Hw as [| [[t w] ms] gs Hw0 Hw IH]; intros c Hr Hcb.
  - apply swipes_nil.
  - change (flat_map gesture_events ((t, w, ms) :: gs))
      with (gesture t w ms ++ flat_map gesture_events gs).
    simpl in Hw0. rewrite run_app.
    pose proof (gesture_step_idle n c t w ms
                  ltac:(apply idle_spec, reachable_inv, Hr) Hcb) as Hstep.
    destruct (run c (gesture t w ms)) as [c1 o1] eqn:E1. simpl in Hstep.
    destruct (run c1 (flat_map gesture_events gs)) as [c2 o2] eqn:E2.
    assert (Hr1 : reachable n c1).
    { replace c1 with (fst (run c (gesture t w ms))) by now rewrite E1.
      apply reach_gesture; assumption. }
    assert (Hcb1 : onChangeIndex (props c1) = true).
    { replace c1 with (fst (run c (gesture t w ms))) by now rewrite E1.
      now rewrite gesture_props. }
    specialize (IH c1 Hr1 Hcb1). rewrite E2 in IH. simpl in *.
    eapply swipes_cons; eassumption.
Qed.

(** ** Witnesses *)

Lemma gesture_refines_swipe_witness :
  reachable 3 mounted /\ onChangeIndex (props mounted) = true /\
  swipe_step 3 (release_index mounted (mkTouch 200 50) 100 [mkTouch 190 50; mkTouch 170 50])
    (page mounted)
    (page (fst (run mounted (gesture (mkTouch 200 50) 100 [mkTouch 190 50; mkTouch 170 50]))))
    (snd (run mounted (gesture (mkTouch 200 50) 100 [mkTouch 190 50; mkTouch 170 50]))).
Proof.
  assert (Hr : reachable 3 mounted) by (apply reach_mount, reach_initial; reflexivity).
  assert (Hcb : onChangeIndex (props mounted) = true) by reflexivity.
  split; [exact Hr | split; [exact Hcb |]].
  exact (gesture_refines_swipe 3 mounted _ _ _ Hr Hcb).
Defined.

Definition two_gestures : list Gesture :=
  [(mkTouch 200 50, 100, [mkTouch 190 50; mkTouch 170 50]);
   (mkTouch 100 50, 100, [mkTouch 98 50; mkTouch 96 50])].

Lemma gestures_refine_swipes_witness :
  reachable 3 mounted /\ onChangeIndex (props mounted) = true /\
  Forall (fun g : Gesture => 0 < snd (fst g)) two_gestures /\
  swipes 3 (page mounted) (page (fst (run mounted (flat_map gesture_events two_gestures))))
         (snd (run mounted (flat_map gesture_events two_gestures))).
Proof.
  assert (Hr : reachable 3 mounted) by (apply reach_mount, reach_initial; reflexivity).
  assert (Hcb : onChangeIndex (props mounted) = true) by reflexivity.
  assert (Hw : Forall (fun g : Gesture => 0 < snd (fst g)) two_gestures)
    by (repeat constructor).
  split; [exact Hr | split; [exact Hcb | split; [exact Hw |]]].
  exact (gestures_refine_swipes 3 mounted two_gestures Hr Hcb Hw).
Defined.

End Refinement.
