(* ===== verification/Render.v ===== *)
(** * The render pipeline: spring targets, the slide registry, updates

    [render] (lines 224-255 of [src/src/index.js]) turns the state into the
    targets of the two react-motion springs: the translation
    [index * 100] with the configuration chosen by [isDragging], and the
    container height [getTargetHeight()] (lines 172-180), which reads the
    slide element at [targetIndex] in [this._slides].  That array is
    refilled by the ref callbacks of [renderContainer] (lines 181-223) when
    the render commits: only the first slide on the first render, every
    slide afterwards.  [render] reads it before the new commit, so the
    height target is computed from the previous commit's slides.  The
    [PureRenderMixin] re-renders only when the props or the state changed
    (shallowly; the [style] prop included).  A [View] is the component with
    its slide registry and its last rendered spring targets; [update] is one
    React update, [force_update] the same update without the mixin. *)

From Stdlib Require Import QArith ZArith List Bool String.
From S2P Require Import Prelude Gesture Resolver Css Controller.
Import ListNotations.
Open Scope Q_scope.

Module Render.
Import Gesture Resolver Css Controller.

(** [this._slides]: one entry per committed slide element, the
    [clientHeight] of its first child element when it has one. *)
Definition Slides := list (option Q).

(** A spring configuration [[stiffness, damping]]. *)
Definition Config := (Q * Q)%type.

(** [isDragging ? [3000, 50] : [300, 30]] (line 234). *)
Definition springConfig (isDragging : bool) : Config :=
  if isDragging then (3000, 50) else (300, 30).

(** The style passed to [Motion] (lines 237-240): the translation target and
    its configuration, and the height target, which [spring(targetHeight)]
    leaves on the library's default configuration. *)
Record MotionStyle := mkStyle {
  translate : Q;
  translate_config : Config;
  height : Q
}.

(** [getTargetHeight] on the slides of the last commit. *)
Definition getTargetHeight (slides : Slides) (targetIndex : Q) : Q :=
  match js_index targetIndex with
  | Some k =>
      match nth_error slides k with
      | Some (Some h) => h
      | _ => 0
      end
  | None => 0
  end.

(** [render]: the spring targets. *)
Definition render (slides : Slides) (st : State) : MotionStyle :=
  {| translate := index st * 100;
     translate_config := springConfig (isDragging st);
     height := getTargetHeight slides (targetIndex st) |}.

(** The slides the ref callbacks of [renderContainer] record at commit: the
    first child alone on the first render, every child afterwards. *)
Definition renderContainer_slides (isFirstRender : bool) (cs : list Child) : Slides :=
  if isFirstRender then [match cs with c :: _ => clientHeight c | [] => None end]
  else map clientHeight cs.

(** Shallow equality of props and states, as [PureRenderMixin] compares them
    with [===]; the host is taken to pass the same children and callback
    objects when their contents are the same. *)
Definition child_eqb (a b : Child) : bool :=
  match clientHeight a, clientHeight b with
  | Some x, Some y => Qeq_bool x y
  | None, None => true
  | _, _ => false
  end.

Fixpoint children_eqb (xs ys : list Child) : bool :=
  match xs, ys with
  | [], [] => true
  | x :: xs', y :: ys' => child_eqb x y && children_eqb xs' ys'
  | _, _ => false
  end.

Definition css_value_eqb (a b : CssValue) : bool :=
  match a, b with
  | CssStr x, CssStr y => String.eqb x y
  | CssNum x, CssNum y => Qeq_bool x y
  | _, _ => false
  end.

Fixpoint style_eqb (o o' : Style) : bool :=
  match o, o' with
  | [], [] => true
  | (k, v) :: r, (k', v') :: r' => String.eqb k k' && css_value_eqb v v' && style_eqb r r'
  | _, _ => false
  end.

Definition style_prop_eqb (a b : option Style) : bool :=
  match a, b with
  | Some o, Some o' => style_eqb o o'
  | None, None => true
  | _, _ => false
  end.

Definition props_eqb (p q : Props) : bool :=
  children_eqb (children p) (children q) && Bool.eqb (disabled p) (disabled q) &&
  Qeq_bool (index_prop p) (index_prop q) &&
  Bool.eqb (onChangeIndex p) (onChangeIndex q) && Qeq_bool (threshold p) (threshold q) &&
  style_prop_eqb (style_prop p) (style_prop q).

Definition state_eqb (s t : State) : bool :=
  Qeq_bool (index s) (index t) && Qeq_bool (targetIndex s) (targetIndex t) &&
  Bool.eqb (isDragging s) (isDragging t) && Bool.eqb (isFirstRender s) (isFirstRender t).

(** [PureRenderMixin]'s [shouldComponentUpdate]. *)
Definition shouldComponentUpdate (c c' : Component) : bool :=
  negb (props_eqb (props c) (props c') && state_eqb (state c) (state c')).

(** The component with the slides of its last commit and the style it
    last passed to [Motion]. *)
Record View := mkView {
  comp : Component;
  slides : Slides;
  style : MotionStyle
}.

(** One React update to the component [c']: render from the slides of the
    last commit, then commit the new slides ([force_update], what React
    does without the mixin); or keep everything when the mixin says no. *)
Definition force_update (v : View) (c' : Component) : View :=
  {| comp := c';
     style := render (slides v) (state c');
     slides := renderContainer_slides (isFirstRender (state c')) (children (props c')) |}.

Definition update (v : View) (c' : Component) : View :=
  if shouldComponentUpdate (comp v) c'
  then force_update v c'
  else {| comp := c'; slides := slides v; style := style v |}.

(** Mounting: the first render reads the empty [_slides] of the prototype,
    commits the first slide, and [componentDidMount] updates. *)
Definition mount (p : Props) : View :=
  let c0 := initial p in
  let v0 := {| comp := c0; style := render [] (state c0);
               slides := renderContainer_slides true (children p) |} in
  update v0 (componentDidMount c0).

(** One event delivered to the mounted view, with the [onChangeIndex]
    calls it made. *)
Definition view_dispatch (v : View) (e : Event) : View * list Q :=
  let '(c', o) := dispatch (comp v) e in (update v c', o).

Fixpoint view_run (v : View) (es : list Event) : View * list Q :=
  match es with
  | [] => (v, [])
  | e :: es' =>
      let '(v1, o1) := view_dispatch v e in
      let '(v2, o2) := view_run v1 es' in (v2, o1 ++ o2)
  end.

(** The host of [Controller.three_slides] asking for slide 2. *)
Definition on_slide_2 : Props :=
  {| children := children three_slides; disabled := false; index_prop := 2;
     onChangeIndex := true; threshold := 5; style_prop := None |}.

(** The host of [Controller.three_slides] after the content of slide 0
    grew from 100 to 150 pixels. *)
Definition grown_slide_0 : Props :=
  {| children := [mkChild (Some 150); mkChild (Some 200); mkChild (Some 300)];
     disabled := false; index_prop := 0; onChangeIndex := true; threshold := 5;
     style_prop := None |}.

(** ** Lemmas *)

#[export] Instance getTargetHeight_comp : Proper (eq ==> Qeq ==> eq) getTargetHeight.
Proof. intros sl sl' <- x y H. unfold getTargetHeight. now rewrite H. Qed.

Lemma state_eqb_true s t :
  state_eqb s t = true ->
  index s == index t /\ targetIndex s == targetIndex t /\
  isDragging s = isDragging t /\ isFirstRender s = isFirstRender t.
Proof.
  unfold state_eqb. rewrite !andb_true_iff, !Qeq_bool_iff, !eqb_true_iff. tauto.
Qed.

Lemma no_update_state c c' :
  shouldComponentUpdate c c' = false ->
  index (state c) == index (state c') /\ targetIndex (state c) == targetIndex (state c') /\
  isDragging (state c) = isDragging (state c').
Proof.
  unfold shouldComponentUpdate. rewrite negb_false_iff, andb_true_iff.
  intros [_ H]. apply state_eqb_true in H. tauto.
Qed.

Lemma mount_props p : props (comp (mount p)) = p.
Proof. unfold mount, update. now destruct shouldComponentUpdate. Qed.

(** The mounted component has committed every slide. *)
Lemma mount_registry p :
  isFirstRender (state (comp (mount p))) = false /\
  slides (mount p) = map clientHeight (children (props (comp (mount p)))).
Proof.
  assert (E : shouldComponentUpdate (initial p) (componentDidMount (initial p)) = true).
  { unfold shouldComponentUpdate, state_eqb. simpl. now rewrite !andb_false_r. }
  unfold mount, update. cbn [comp]. rewrite E. split; reflexivity.
Qed.

(** A view whose spring targets are those of its state: the translation is
    [index * 100] with the configuration of [isDragging], the height is
    the measured height of the slide at [targetIndex], and every slide is
    committed. *)
Definition synced (v : View) : Prop :=
  isFirstRender (state (comp v)) = false /\
  slides v = map clientHeight (children (props (comp v))) /\
  translate (style v) == index (state (comp v)) * 100 /\
  translate_config (style v) = springConfig (isDragging (state (comp v))) /\
  height (style v) == getTargetHeight (slides v) (targetIndex (state (comp v))).

(** An update that re-renders a component whose slides are all committed
    makes the view synced, when the children are unchanged. *)
Lemma rerender_synced v c' :
  isFirstRender (state c') = false ->
  slides v = map clientHeight (children (props c')) ->
  shouldComponentUpdate (comp v) c' = true ->
  synced (update v c').
Proof.
  intros Hf Hsl Hs. unfold update. rewrite Hs. unfold force_update, synced.
  cbn [comp slides style].
  rewrite Hf. unfold render. cbn [translate translate_config height].
  unfold renderContainer_slides. rewrite <- Hsl. repeat split; reflexivity.
Qed.

(** Two styles with the same targets. *)
Definition style_equiv (s t : MotionStyle) : Prop :=
  translate s == translate t /\ translate_config s = translate_config t /\
  height s == height t.

(** Two views that show the same and will read the same heights. *)
Definition view_equiv (v w : View) : Prop :=
  comp v = comp w /\ style_equiv (style v) (style w) /\
  forall t, getTargetHeight (slides v) t == getTargetHeight (slides w) t.

Lemma children_eqb_heights xs ys t :
  children_eqb xs ys = true ->
  getTargetHeight (map clientHeight xs) t == getTargetHeight (map clientHeight ys) t.
Proof.
  unfold getTargetHeight. destruct (js_index t) as [k |]; [| reflexivity].
  revert ys k. induction xs as [| x xs IH]; intros [| y ys] k H; try discriminate;
    [reflexivity |].
  simpl in H. apply andb_true_iff in H as [Hxy H].
  destruct k as [| k]; [| exact (IH ys k H)]. cbn [map nth_error].
  unfold child_eqb in Hxy.
  destruct (clientHeight x), (clientHeight y); try discriminate; [| reflexivity].
  now apply Qeq_bool_iff.
Qed.

Lemma no_update_eqb c c' :
  shouldComponentUpdate c c' = false ->
  children_eqb (children (props c)) (children (props c')) = true /\
  state_eqb (state c) (state c') = true.
Proof.
  unfold shouldComponentUpdate, props_eqb.
  rewrite negb_false_iff, !andb_true_iff. tauto.
Qed.

(** [PureRenderMixin] compares by contents: a component with the same
    props and state is not re-rendered. *)
Lemma children_eqb_refl xs : children_eqb xs xs = true.
Proof.
  induction xs as [| x xs IH]; [reflexivity |]. cbn [children_eqb]. rewrite IH.
  unfold child_eqb. destruct (clientHeight x); [now rewrite Qeq_bool_refl | reflexivity].
Qed.

Lemma style_eqb_refl o : style_eqb o o = true.
Proof.
  induction o as [| [k v] o IH]; [reflexivity |]. cbn [style_eqb].
  rewrite String.eqb_refl, IH. destruct v; cbn [css_value_eqb];
    [now rewrite String.eqb_refl | now rewrite Qeq_bool_refl].
Qed.

Lemma shouldComponentUpdate_same c c' :
  props c' = props c -> state c' = state c -> shouldComponentUpdate c c' = false.
Proof.
  intros Hp Hs. unfold shouldComponentUpdate, props_eqb, state_eqb, style_prop_eqb.
  rewrite Hp, Hs, children_eqb_refl, !Qeq_bool_refl, !eqb_reflx.
  destruct (style_prop (props c)); [now rewrite style_eqb_refl | reflexivity].
Qed.

(** Props that differ in [index] make the mixin re-render. *)
Lemma props_eqb_index p q : props_eqb p q = true -> index_prop p == index_prop q.
Proof. unfold props_eqb. rewrite !andb_true_iff, Qeq_bool_iff. tauto. Qed.

(** A [touchstart] changes only the session fields of [this], never the
    props or the state: React does not re-render, the view keeps its
    spring targets and its registry. *)
Lemma touchstart_no_render v t w :
  style (fst (view_dispatch v (TouchStart t w))) = style v /\
  slides (fst (view_dispatch v (TouchStart t w))) = slides v.
Proof.
  unfold view_dispatch, dispatch.
  destruct (disabled (props (comp v))); cbn [fst]; unfold update;
    rewrite shouldComponentUpdate_same by reflexivity; split; reflexivity.
Qed.

(** Mounting always re-renders after [componentDidMount]. *)
Lemma mount_rerenders p :
  shouldComponentUpdate (initial p) (componentDidMount (initial p)) = true.
Proof. unfold shouldComponentUpdate, state_eqb. simpl. now rewrite !andb_false_r. Qed.

(** A registry of one slide answers 0 at every other index. *)
Lemma getTargetHeight_single h t : ~ t == 0 -> getTargetHeight [h] t = 0.
Proof.
  intros Ht. unfold getTargetHeight.
  destruct (js_index t) as [[| [| k]] |] eqn:E; try reflexivity.
  apply js_index_zero in E. contradiction.
Qed.

(** [componentWillReceiveProps] keeps [targetIndex], [isDragging] and
    [isFirstRender]. *)
Lemma receive_props_state c p :
  targetIndex (state (componentWillReceiveProps c p)) = targetIndex (state c) /\
  isDragging (state (componentWillReceiveProps c p)) = isDragging (state c) /\
  isFirstRender (state (componentWillReceiveProps c p)) = isFirstRender (state c).
Proof.
  unfold componentWillReceiveProps. cbn [state].
  destruct (negb _); repeat split.
Qed.

(** An update of the props that the mixin does not skip: [render] reads
    the registry of the previous commit, the new children are committed. *)
Lemma receive_props_rerender v p :
  isFirstRender (state (comp v)) = false -> props_eqb (props (comp v)) p = false ->
  let v' := fst (view_dispatch v (ReceiveProps p)) in
  style v' = render (slides v) (state (componentWillReceiveProps (comp v) p)) /\
  slides v' = map clientHeight (children p).
Proof.
  intros Hf Hp v'. unfold v', view_dispatch, dispatch, update. cbn [fst].
  assert (Hs : shouldComponentUpdate (comp v) (componentWillReceiveProps (comp v) p) = true)
    by (unfold shouldComponentUpdate; cbn [props componentWillReceiveProps]; now rewrite Hp).
  rewrite Hs. unfold force_update. cbn [style slides].
  destruct (receive_props_state (comp v) p) as (_ & _ & ->). now rewrite Hf.
Qed.

(** ** Properties *)

(** One event that keeps the children keeps a view synced. *)
Lemma synced_dispatch v e :
  synced v ->
  children (props (fst (dispatch (comp v) e))) = children (props (comp v)) ->
  synced (fst (view_dispatch v e)).
Proof.
  intros (Hf & Hsl & Htr & Hcf & Hh) Hch. unfold view_dispatch.
  pose proof (dispatch_isFirstRender (comp v) e Hf) as Hf'.
  destruct (dispatch (comp v) e) as [c' o]. cbn [fst] in *.
  destruct (shouldComponentUpdate (comp v) c') eqn:Hs.
  - apply rerender_synced; [exact Hf' | now rewrite Hch | exact Hs].
  - destruct (no_update_state _ _ Hs) as (Hi & Ht & Hd).
    unfold update. rewrite Hs. unfold synced. cbn [comp slides style].
    rewrite Hch, <- Hd, <- Hi, <- Ht. repeat split; assumption.
Qed.

(** The component of the view after an event is the component [dispatch]
    returns. *)
Lemma view_dispatch_comp v e : comp (fst (view_dispatch v e)) = fst (dispatch (comp v) e).
Proof.
  unfold view_dispatch. destruct (dispatch (comp v) e) as [c' o].
  unfold update. now destruct shouldComponentUpdate.
Qed.

Lemma view_run_cons v e es :
  fst (view_run v (e :: es)) = fst (view_run (fst (view_dispatch v e)) es).
Proof.
  cbn [view_run]. destruct (view_dispatch v e) as [v1 o1]. cbn [fst].
  destruct (view_run v1 es) as [v2 o2]. reflexivity.
Qed.

(** Every event of a run keeps the children of the component it reaches. *)
Fixpoint keeps_children (c : Component) (es : list Event) : Prop :=
  match es with
  | [] => True
  | e :: es' =>
      children (props (fst (dispatch c e))) = children (props c) /\
      keeps_children (fst (dispatch c e)) es'
  end.

(** C12: the spring targets follow the state: once a view is synced, every
    later run of events that keeps the children leaves it synced, whether
    React re-renders at each event or the mixin skips the update. *)
Theorem synced_preserved v es :
  synced v -> keeps_children (comp v) es -> synced (fst (view_run v es)).
Proof.
  revert v. induction es as [| e es IH]; intros v Hs Hk; [exact Hs |].
  destruct Hk as [Hch Hk]. rewrite view_run_cons.
  apply IH; [now apply synced_dispatch | now rewrite view_dispatch_comp].
Qed.

(** C18: after mounting, the first event that makes React re-render with the
    same children brings every spring target in line with the state. *)
Theorem first_rerender_syncs p e :
  children (props (fst (dispatch (comp (mount p)) e))) = children p ->
  shouldComponentUpdate (comp (mount p)) (fst (dispatch (comp (mount p)) e)) = true ->
  synced (fst (view_dispatch (mount p) e)).
Proof.
  intros Hch Hs. destruct (mount_registry p) as [Hf Hsl].
  unfold view_dispatch.
  pose proof (dispatch_isFirstRender (comp (mount p)) e Hf) as Hf'.
  destruct (dispatch (comp (mount p)) e) as [c' o]. cbn [fst] in *.
  apply rerender_synced; [exact Hf' | | exact Hs].
  rewrite Hsl, Hch, mount_props. reflexivity.
Qed.

(** C22: mounted on any slide other than the first, the container's height
    target is 0: the render after [componentDidMount] reads the registry
    of the first commit, which holds the first slide only, although every
    slide is committed by then; and a [touchstart] does not re-render, so
    the target stays at 0 until the state changes. *)
Theorem initial_index_height_zero p t w :
  ~ index_prop p == 0 ->
  let v := mount p in
  slides v = map clientHeight (children p) /\ height (style v) == 0 /\
  height (style (fst (view_dispatch v (TouchStart t w)))) == 0.
Proof.
  intros Hi v. destruct (mount_registry p) as [_ Hsl]. rewrite mount_props in Hsl.
  destruct (touchstart_no_render v t w) as [-> _].
  assert (Hh : height (style v) == 0).
  { unfold v, mount. cbv zeta. unfold update. cbn [comp]. rewrite mount_rerenders.
    cbn [force_update style render height renderContainer_slides].
    cbn [componentDidMount initial getInitialState state targetIndex set_state].
    cbn [slides]. now rewrite getTargetHeight_single. }
  split; [exact Hsl | split; exact Hh].
Qed.

(** C23: [PureRenderMixin] is a sound optimisation once the view is synced:
    when it skips an update, the view shows the same spring targets and
    will read the same slide heights as a forced re-render would.  (Right
    after mounting, when the registry holds the first slide only, it is
    not.) *)
Theorem pure_render_sound v c' :
  synced v -> shouldComponentUpdate (comp v) c' = false ->
  view_equiv (update v c') (force_update v c').
Proof.
  intros (Hf & Hsl & Htr & Hcf & Hh) Hs.
  destruct (no_update_eqb _ _ Hs) as [Hch Hst].
  apply state_eqb_true in Hst as (Hi & Ht & Hd & Hfr).
  unfold update. rewrite Hs. unfold force_update, view_equiv, style_equiv, render.
  cbn [comp style slides translate translate_config height].
  split; [reflexivity | split; [split; [| split] |]].
  - now rewrite Htr, Hi.
  - now rewrite Hcf, Hd.
  - now rewrite Hh, Ht.
  - intros t. rewrite <- Hfr, Hf, Hsl. unfold renderContainer_slides.
    now apply children_eqb_heights.
Qed.

(** C19: the height target lags behind a change of the children: on a
    synced view, an update of the props that the mixin does not skip
    commits the new children, but the height target is still the height
    of the slide at [targetIndex] in the previous commit; a following
    [touchstart] does not re-render, so the stale target stays. *)
Theorem children_change_stale_height v p t w :
  synced v -> props_eqb (props (comp v)) p = false ->
  let v' := fst (view_run v [ReceiveProps p; TouchStart t w]) in
  slides v' = map clientHeight (children p) /\
  height (style v') == getTargetHeight (slides v) (targetIndex (state (comp v))).
Proof.
  intros (Hf & _) Hp v'. unfold v'. rewrite view_run_cons. cbn [view_run].
  destruct (receive_props_rerender v p Hf Hp) as [Hst Hsl].
  destruct (touchstart_no_render (fst (view_dispatch v (ReceiveProps p))) t w) as [Hst' Hsl'].
  destruct (view_dispatch (fst (view_dispatch v (ReceiveProps p))) (TouchStart t w))
    as [v2 o2] eqn:E. cbn [fst] in *.
  rewrite Hsl', Hst', Hsl, Hst. split; [reflexivity |].
  unfold render. cbn [height]. destruct (receive_props_state (comp v) p) as (-> & _).
  reflexivity.
Qed.

(** C26: a new [index] prop is applied at once and to [index] only: on a
    synced view, even during a drag, the translation target moves to
    [index_prop * 100], unclamped, while [targetIndex] and so the height
    target stay on the previous slide. *)
Theorem index_prop_moves_translation_only v p :
  synced v -> ~ index_prop p == index_prop (props (comp v)) ->
  let v' := fst (view_dispatch v (ReceiveProps p)) in
  index (state (comp v')) = index_prop p /\
  isDragging (state (comp v')) = isDragging (state (comp v)) /\
  targetIndex (state (comp v')) = targetIndex (state (comp v)) /\
  translate (style v') == index_prop p * 100 /\ height (style v') == height (style v).
Proof.
  intros (Hf & _ & _ & _ & Hh) Hi v'.
  assert (Hp : props_eqb (props (comp v)) p = false).
  { destruct (props_eqb _ p) eqn:E; [| reflexivity].
    apply props_eqb_index in E. symmetry in E. contradiction. }
  destruct (receive_props_rerender v p Hf Hp) as [Hst _]. fold v' in Hst.
  assert (Hc : comp v' = componentWillReceiveProps (comp v) p)
    by (unfold v'; now rewrite view_dispatch_comp).
  destruct (receive_props_state (comp v) p) as (Ht & Hd & _).
  assert (Hix : index (state (componentWillReceiveProps (comp v) p)) = index_prop p).
  { unfold componentWillReceiveProps. cbn [state].
    destruct (Qeq_bool_spec (index_prop p) (index_prop (props (comp v)))); [contradiction |].
    reflexivity. }
  rewrite Hc, Hst. unfold render. cbn [translate height].
  rewrite Hix, Ht, Hd, Hh. repeat split; reflexivity.
Qed.

(** ** Witnesses *)

Lemma synced_preserved_witness :
  let v := fst (view_run (mount three_slides)
                  [TouchStart (mkTouch 200 50) 100; TouchMove (mkTouch 150 50)]) in
  synced v /\ keeps_children (comp v) [TouchMove (mkTouch 120 50); TouchEnd] /\
  synced (fst (view_run v [TouchMove (mkTouch 120 50); TouchEnd])).
Proof.
  intros v.
  assert (H1 : synced v) by (unfold synced; vm_compute; repeat split; reflexivity).
  assert (H2 : keeps_children (comp v) [TouchMove (mkTouch 120 50); TouchEnd])
    by (vm_compute; repeat split).
  split; [exact H1 | split; [exact H2 | exact (synced_preserved v _ H1 H2)]].
Defined.

Lemma first_rerender_syncs_witness :
  children (props (fst (dispatch (comp (mount on_slide_2)) (ReceiveProps three_slides)))) =
    children on_slide_2 /\
  shouldComponentUpdate (comp (mount on_slide_2))
    (fst (dispatch (comp (mount on_slide_2)) (ReceiveProps three_slides))) = true /\
  synced (fst (view_dispatch (mount on_slide_2) (ReceiveProps three_slides))).
Proof.
  assert (H1 : children (props (fst (dispatch (comp (mount on_slide_2))
                 (ReceiveProps three_slides)))) = children on_slide_2) by reflexivity.
  assert (H2 : shouldComponentUpdate (comp (mount on_slide_2))
                 (fst (dispatch (comp (mount on_slide_2)) (ReceiveProps three_slides))) = true)
    by (vm_compute; reflexivity).
  split; [exact H1 | split; [exact H2 |]].
  exact (first_rerender_syncs on_slide_2 (ReceiveProps three_slides) H1 H2).
Defined.

Lemma pure_render_sound_witness :
  let v := fst (view_run (mount three_slides)
                  [TouchStart (mkTouch 200 50) 100; TouchMove (mkTouch 150 50)]) in
  synced v /\ shouldComponentUpdate (comp v) (fst (dispatch (comp v) TouchCancel)) = false /\
  view_equiv (update v (fst (dispatch (comp v) TouchCancel)))
             (force_update v (fst (dispatch (comp v) TouchCancel))).
Proof.
  intros v.
  assert (H1 : synced v) by (unfold synced; vm_compute; repeat split; reflexivity).
  assert (H2 : shouldComponentUpdate (comp v) (fst (dispatch (comp v) TouchCancel)) = false)
    by (vm_compute; reflexivity).
  split; [exact H1 | split; [exact H2 | exact (pure_render_sound v _ H1 H2)]].
Defined.

Lemma initial_index_height_zero_witness :
  ~ index_prop on_slide_2 == 0 /\ height (style (mount on_slide_2)) == 0.
Proof.
  assert (H : ~ index_prop on_slide_2 == 0) by (intros H; vm_compute in H; discriminate).
  split; [exact H |].
  exact (proj1 (proj2 (initial_index_height_zero on_slide_2 (mkTouch 200 50) 100 H))).
Defined.

Lemma children_change_stale_height_witness :
  synced (mount three_slides) /\ props_eqb (props (comp (mount three_slides))) grown_slide_0 = false /\
  height (style (fst (view_run (mount three_slides)
                        [ReceiveProps grown_slide_0; TouchStart (mkTouch 200 50) 100]))) ==
    getTargetHeight (slides (mount three_slides))
                    (targetIndex (state (comp (mount three_slides)))).
Proof.
  assert (H1 : synced (mount three_slides))
    by (unfold synced; vm_compute; repeat split; reflexivity).
  assert (H2 : props_eqb (props (comp (mount three_slides))) grown_slide_0 = false)
    by (vm_compute; reflexivity).
  split; [exact H1 | split; [exact H2 |]].
  exact (proj2 (children_change_stale_height _ _ (mkTouch 200 50) 100 H1 H2)).
Defined.

Lemma index_prop_moves_translation_only_witness :
  synced (mount three_slides) /\
  ~ index_prop on_slide_2 == index_prop (props (comp (mount three_slides))) /\
  translate (style (fst (view_dispatch (mount three_slides) (ReceiveProps on_slide_2)))) ==
    index_prop on_slide_2 * 100.
Proof.
  assert (H1 : synced (mount three_slides))
    by (unfold synced; vm_compute; repeat split; reflexivity).
  assert (H2 : ~ index_prop on_slide_2 == index_prop (props (comp (mount three_slides))))
    by (intros H; vm_compute in H; discriminate).
  split; [exact H1 | split; [exact H2 |]].
  exact (proj1 (proj2 (proj2 (proj2 (index_prop_moves_translation_only _ _ H1 H2))))).
Defined.

End Render.
