(* ===== verification/Spring.v ===== *)
(** * The spring animation: react-motion's stepper and the [Motion] driver

    [render] hands [Motion] a style of two spring targets (see [Render]);
    react-motion (a library, not part of this repository) then advances
    each value one step per animation frame toward its target.  This file
    states what the driver needs of a stepper as the class [Stepper] (a
    spring at rest on its target stays there; the step respects [Qeq]),
    writes the driver [motion_frame] against that interface, and gives the
    stepper the specification describes (acceleration
    [stiffness * (target - value) - damping * velocity], velocity then value
    advanced by [dt]) as the instance [euler_stepper].  For the two
    configurations [render] chooses ([springConfig]) and 60 frames per
    second, it proves how fast the error decays: with the idle
    configuration [[300, 30]] a spring released at rest never overshoots
    and [(3 + n) |e_n| <= 9 |e_0|]; with the dragging configuration
    [[3000, 50]] the error decays as [6^n e_n^2 <= e_0^2] but overshoots.
    [Converge] extends the rates to springs that do not start at rest. *)

From Stdlib Require Import QArith Qabs Lqa ZArith Lia List Setoid Morphisms.
From S2P Require Import Prelude Gesture Controller Render.
Import ListNotations.
Open Scope Q_scope.

Module Spring.
Import Gesture Controller Render.

(** The state of one animated value. *)
Record SpringState := mkSpring { value : Q; velocity : Q }.

(** Two spring states with the same numbers. *)
Definition spring_eq (s t : SpringState) : Prop :=
  value s == value t /\ velocity s == velocity t.

#[export] Instance spring_eq_equiv : Equivalence spring_eq.
Proof.
  split.
  - intros s. split; reflexivity.
  - intros s t [H1 H2]. split; symmetry; assumption.
  - intros s t u [H1 H2] [H3 H4]. split; etransitivity; eassumption.
Qed.

(** The interface of a stepper: one step of [dt] seconds toward a target
    with a configuration [[stiffness, damping]]. *)
Class Stepper := {
  step : Config -> Q -> Q -> SpringState -> SpringState;
  step_rest : forall cfg dt x, spring_eq (step cfg dt x (mkSpring x 0)) (mkSpring x 0);
  step_proper : forall cfg dt, Proper (Qeq ==> spring_eq ==> spring_eq) (step cfg dt)
}.

#[export] Instance step_proper_inst `{Stepper} cfg dt :
  Proper (Qeq ==> spring_eq ==> spring_eq) (step cfg dt) := step_proper cfg dt.

(** The length of a frame: react-motion steps its springs at 60 frames per
    second. *)
Definition frame_dt : Q := 1 # 60.

(** The configuration react-motion uses for [spring(value)] without one. *)
Definition default_config : Config := (170, 26).

(** The two animated values of [Motion]: the translation and the height. *)
Record MotionState := mkMotion { tx : SpringState; hy : SpringState }.

Section Driver.
Context `{Stepper}.

(** One animation frame of [Motion] on the style [st]. *)
Definition motion_frame (st : MotionStyle) (m : MotionState) : MotionState :=
  {| tx := step (translate_config st) frame_dt (translate st) (tx m);
     hy := step default_config frame_dt (height st) (hy m) |}.

Definition motion_frames (n : nat) (st : MotionStyle) (m : MotionState) : MotionState :=
  iter n (motion_frame st) m.

(** The translation channel evolves on its own. *)
Lemma motion_frames_tx n st m :
  tx (motion_frames n st m) = iter n (step (translate_config st) frame_dt (translate st)) (tx m).
Proof.
  unfold motion_frames. induction n as [| n IH]; [reflexivity |].
  simpl. now rewrite IH.
Qed.

(** The height channel evolves on its own. *)
Lemma motion_frames_hy n st m :
  hy (motion_frames n st m) = iter n (step default_config frame_dt (height st)) (hy m).
Proof.
  unfold motion_frames. induction n as [| n IH]; [reflexivity |].
  simpl. now rewrite IH.
Qed.

End Driver.

(** ** The stepper of the specification *)

(** Acceleration [k (target - value) - b velocity]; the velocity is
    advanced first and the value moves with the new velocity. *)
Definition euler_step (cfg : Config) (dt target : Q) (s : SpringState) : SpringState :=
  let a := fst cfg * (target - value s) - snd cfg * velocity s in
  let v := velocity s + a * dt in
  {| value := value s + v * dt; velocity := v |}.

#[export] Program Instance euler_stepper : Stepper := {| step := euler_step |}.
Next Obligation.
  unfold euler_step, spring_eq. simpl. split; ring.
Qed.
Next Obligation.
  intros x y Hxy s t [Hv Hw]. unfold euler_step, spring_eq. simpl.
  rewrite Hxy, Hv, Hw. split; reflexivity.
Qed.

(** A stepper iterated toward targets equal as numbers gives equal states. *)
Lemma iter_step_proper `{Stepper} cfg dt n T T' s s' :
  T == T' -> spring_eq s s' ->
  spring_eq (iter n (step cfg dt T) s) (iter n (step cfg dt T') s').
Proof.
  intros HT Hs. induction n as [| n IH]; simpl; [exact Hs |].
  now apply (step_proper cfg dt).
Qed.

(** ** The idle configuration: no overshoot and a [1/n] rate *)

(** One idle step in error coordinates: with [e = value - target] and
    [u = velocity / 60], [u' = u/2 - e/12] and [e' = e + u']. *)
Lemma idle_step_eqs T s :
  let s' := euler_step (springConfig false) frame_dt T s in
  velocity s' * frame_dt == velocity s * frame_dt * (1 # 2) - (value s - T) * (1 # 12) /\
  value s' - T == (value s - T) + velocity s' * frame_dt.
Proof. unfold euler_step, springConfig, frame_dt. simpl. split; ring. Qed.

(** From rest the error is [3 P - 2 R] with [P = (3/4)^n e_0] and
    [R = (2/3)^n e_0]; [P] and [R] keep the sign of [e_0], [|R| <= |P|],
    and [(3 + n) P] stays below [3 e_0] in absolute value. *)
Definition idle_inv (e0 : Q) (n : nat) (T : Q) (s : SpringState) : Prop :=
  exists P R, value s - T == 3 * P - 2 * R /\ velocity s * frame_dt == R - P /\
    ((0 <= R <= P /\ (3 + inject_Z (Z.of_nat n)) * P <= 3 * e0) \/
     (P <= R <= 0 /\ 3 * e0 <= (3 + inject_Z (Z.of_nat n)) * P)).

Lemma idle_inv_step e0 n T s :
  idle_inv e0 n T s -> idle_inv e0 (S n) T (euler_step (springConfig false) frame_dt T s).
Proof.
  intros (P & R & He & Hu & Hc). destruct (idle_step_eqs T s) as [Hu' He'].
  exists ((3 # 4) * P), ((2 # 3) * R). unfold frame_dt in *.
  rewrite inject_Z_of_nat_succ.
  pose proof (inject_Z_of_nat_nonneg n) as HN.
  set (N := inject_Z (Z.of_nat n)) in *.
  split; [lra | split; [lra |]].
  destruct Hc as [([H1 H2] & H3) | ([H1 H2] & H3)]; [left | right].
  - assert (0 <= N * P) by (apply Qmult_le_0_compat; lra). lra.
  - assert (0 <= N * - P) by (apply Qmult_le_0_compat; lra). lra.
Qed.

Lemma idle_inv_iter x0 T n :
  idle_inv (x0 - T) n T (iter n (euler_step (springConfig false) frame_dt T) (mkSpring x0 0)).
Proof.
  induction n as [| n IH]; [| apply idle_inv_step, IH].
  exists (x0 - T), (x0 - T). cbn [value velocity iter].
  change (inject_Z (Z.of_nat 0)) with 0.
  destruct (Qlt_le_dec (x0 - T) 0); [split; [lra | split; [lra | right; lra]] |
                                      split; [lra | split; [lra | left; lra]]].
Qed.

(** The invariant bounds the distance to the target by [9 |e0| / (3 + n)]. *)
Lemma idle_inv_rate e0 n T s :
  idle_inv e0 n T s ->
  (3 + inject_Z (Z.of_nat n)) * Qabs (value s - T) <= 9 * Qabs e0.
Proof.
  intros (P & R & He & Hu & Hc).
  pose proof (inject_Z_of_nat_nonneg n) as HN.
  set (N := inject_Z (Z.of_nat n)) in *.
  set (e := value s - T) in *.
  destruct Hc as [([H1 H2] & H3) | ([H1 H2] & H3)].
  - assert (0 <= N * P) by (apply Qmult_le_0_compat; lra).
    assert (0 <= N * R) by (apply Qmult_le_0_compat; lra).
    rewrite !Qabs_pos by lra. rewrite He. lra.
  - assert (0 <= N * - P) by (apply Qmult_le_0_compat; lra).
    assert (0 <= N * - R) by (apply Qmult_le_0_compat; lra).
    rewrite !Qabs_neg by lra. rewrite He. lra.
Qed.

(** C20: the idle spring never overshoots: released at rest, the distance to
    the target never grows from one frame to the next and the value stays
    on the side it started from. *)
Theorem idle_spring_monotone x0 T n :
  let s := fun k => iter k (euler_step (springConfig false) frame_dt T) (mkSpring x0 0) in
  Qabs (value (s (S n)) - T) <= Qabs (value (s n) - T) /\
  0 <= (value (s n) - T) * (x0 - T).
Proof.
  cbv beta zeta. cbn [iter].
  destruct (idle_inv_iter x0 T n) as (P & R & He & Hu & Hc).
  set (sn := iter n (euler_step (springConfig false) frame_dt T) (mkSpring x0 0)) in *.
  destruct (idle_step_eqs T sn) as [Hu' He']. unfold frame_dt in *.
  pose proof (inject_Z_of_nat_nonneg n) as HN.
  set (N := inject_Z (Z.of_nat n)) in *.
  destruct Hc as [([H1 H2] & H3) | ([H1 H2] & H3)].
  - assert (0 <= N * P) by (apply Qmult_le_0_compat; lra).
    rewrite !Qabs_pos by lra. split; [lra | apply Qmult_le_0_compat; lra].
  - assert (0 <= N * - P) by (apply Qmult_le_0_compat; lra).
    rewrite !Qabs_neg by lra. split; [lra |].
    setoid_replace ((value sn - T) * (x0 - T)) with ((T - value sn) * (T - x0)) by ring.
    apply Qmult_le_0_compat; lra.
Qed.

(** The idle spring converges with an explicit rate: released at rest at
    distance [e_0] from the target, its distance after [n] frames is at
    most [9 |e_0| / (3 + n)], so it is within any [eps > 0] after
    [9 |e_0| / eps] frames. *)
Theorem idle_spring_rate x0 T n :
  (3 + inject_Z (Z.of_nat n)) *
    Qabs (value (iter n (euler_step (springConfig false) frame_dt T) (mkSpring x0 0)) - T)
  <= 9 * Qabs (x0 - T).
Proof. apply idle_inv_rate, idle_inv_iter. Qed.

(** ** The dragging configuration: geometric decay, with overshoot *)

(** With [x = value - target] and [y] the error of the next frame,
    [y^2 - x y / 3 + x^2 / 6] shrinks by 6 at every dragging step. *)
Definition drag_energy (T : Q) (s : SpringState) : Q :=
  let x := value s - T in
  let y := (x + velocity s * frame_dt) * (1 # 6) in
  y * y - x * y * (1 # 3) + x * x * (1 # 6).

Lemma drag_energy_step T s :
  drag_energy T (euler_step (springConfig true) frame_dt T s) == drag_energy T s * (1 # 6).
Proof. unfold drag_energy, euler_step, springConfig, frame_dt. simpl. ring. Qed.

Lemma drag_energy_bound T s : (value s - T) * (value s - T) <= (36 # 5) * drag_energy T s.
Proof.
  unfold drag_energy. set (x := value s - T). set (y := (x + velocity s * frame_dt) * (1 # 6)).
  pose proof (Qsq_nonneg (y - x * (1 # 6))). lra.
Qed.

Lemma drag_energy_iter x0 T n :
  inject_Z (6 ^ Z.of_nat n) *
    drag_energy T (iter n (euler_step (springConfig true) frame_dt T) (mkSpring x0 0))
  == drag_energy T (mkSpring x0 0).
Proof.
  induction n as [| n IH]; [simpl; ring |].
  cbn [iter]. rewrite drag_energy_step, Nat2Z.inj_succ, Z.pow_succ_r by lia.
  rewrite inject_Z_mult, <- IH. ring.
Qed.

(** The dragging spring converges geometrically: released at rest at
    distance [e_0], its distance [e_n] after [n] frames satisfies
    [6^n e_n^2 <= e_0^2]. *)
Lemma drag_spring_rate x0 T n :
  let e := value (iter n (euler_step (springConfig true) frame_dt T) (mkSpring x0 0)) - T in
  inject_Z (6 ^ Z.of_nat n) * (e * e) <= (x0 - T) * (x0 - T).
Proof.
  intros e. pose proof (drag_energy_iter x0 T n) as Hit.
  pose proof (drag_energy_bound T (iter n (euler_step (springConfig true) frame_dt T)
                                        (mkSpring x0 0))) as Hb.
  fold e in Hb.
  set (W := drag_energy T (iter n _ _)) in *.
  set (K := inject_Z (6 ^ Z.of_nat n)) in *.
  assert (HK : 0 <= K).
  { unfold K. change 0 with (inject_Z 0). rewrite <- Zle_Qle. apply Z.pow_nonneg. lia. }
  assert (Hrest : drag_energy T (mkSpring x0 0) == (5 # 36) * ((x0 - T) * (x0 - T))).
  { unfold drag_energy. simpl. ring. }
  assert (H1 : 0 <= K * ((36 # 5) * W - e * e)) by (apply Qmult_le_0_compat; lra).
  assert (H2 : K * W == (5 # 36) * ((x0 - T) * (x0 - T))) by (rewrite Hit; exact Hrest).
  lra.
Qed.

(** One frame of the dragging spring in the coordinates of [Converge]:
    the error [e = value - target] and the frame velocity
    [u = velocity * dt] become [(e + u) / 6] and [(u - 5 e) / 6]. *)
Lemma drag_step_coords T s :
  let s' := euler_step (springConfig true) frame_dt T s in
  value s' - T == (value s - T + velocity s * frame_dt) / 6 /\
  velocity s' * frame_dt == (velocity s * frame_dt - 5 * (value s - T)) / 6.
Proof. unfold euler_step, springConfig, frame_dt. cbn [value velocity fst snd]. split; field. Qed.

(** C30: unlike the idle spring, the dragging spring overshoots and its
    distance to the target is not monotone, for every target and every
    start at rest off the target: after 2 frames it is on the other side
    of the target at [1/9] of the initial distance, and it is farther from
    the target after 5 frames ([19/1944] of it) than after 4 ([1/324]).
    The specification says the distance decreases at every frame. *)
Theorem drag_spring_not_monotone T d :
  ~ d == 0 ->
  let s := fun k => iter k (euler_step (springConfig true) frame_dt T) (mkSpring (T + d) 0) in
  value (s 2%nat) - T == - (1 # 9) * d /\
  Qabs (value (s 4%nat) - T) < Qabs (value (s 5%nat) - T).
Proof.
  intros Hd s.
  assert (E : forall k, value (s (S k)) - T == (value (s k) - T + velocity (s k) * frame_dt) / 6
                     /\ velocity (s (S k)) * frame_dt
                        == (velocity (s k) * frame_dt - 5 * (value (s k) - T)) / 6)
    by (intros k; apply drag_step_coords).
  assert (E0 : value (s 0%nat) - T == d /\ velocity (s 0%nat) * frame_dt == 0)
    by (cbn [s iter value velocity]; split; ring).
  destruct E0 as [A0 B0].
  destruct (E 0%nat) as [A1 B1]. rewrite A0, B0 in A1, B1.
  destruct (E 1%nat) as [A2 B2]. rewrite A1, B1 in A2, B2.
  destruct (E 2%nat) as [A3 B3]. rewrite A2, B2 in A3, B3.
  destruct (E 3%nat) as [A4 B4]. rewrite A3, B3 in A4, B4.
  destruct (E 4%nat) as [A5 _]. rewrite A4, B4 in A5.
  assert (H4 : value (s 4%nat) - T == - (1 # 324) * d) by (rewrite A4; field).
  assert (H5 : value (s 5%nat) - T == (19 # 1944) * d) by (rewrite A5; field).
  split; [rewrite A2; field |]. rewrite H4, H5, !Qabs_Qmult.
  change (Qabs (- (1 # 324))) with (1 # 324). change (Qabs (19 # 1944)) with (19 # 1944).
  assert (Hpos : 0 < Qabs d).
  { destruct (Q_dec 0 d) as [[Hp | Hn] | Hz]; [| | symmetry in Hz; contradiction].
    - now rewrite Qabs_pos by lra.
    - rewrite Qabs_neg by lra. lra. }
  lra.
Qed.

(** ** The view eases toward the slide *)

(** Once the view is synced and no drag is in progress, the translation
    that [Motion] animates from rest at [x0] approaches [100 * index] at the
    idle rate: after [n] frames its distance is at most
    [9 |x0 - 100 * index| / (3 + n)]. *)
Theorem idle_view_eases v m x0 n :
  synced v -> isDragging (state (comp v)) = false -> tx m = mkSpring x0 0 ->
  (3 + inject_Z (Z.of_nat n)) *
    Qabs (value (tx (motion_frames n (style v) m)) - index (state (comp v)) * 100)
  <= 9 * Qabs (x0 - index (state (comp v)) * 100).
Proof.
  intros (_ & _ & Htr & Hcf & _) Hd Hm.
  rewrite motion_frames_tx, Hm, Hcf, Hd.
  destruct (iter_step_proper (springConfig false) frame_dt n _ _ (mkSpring x0 0)
              (mkSpring x0 0) Htr (reflexivity _)) as [Hv _].
  rewrite Hv. apply idle_inv_rate, idle_inv_iter.
Qed.

(** ** Witnesses *)

(** The view after a flick from slide 0 to slide 1, with the translation
    left at 50 by the drag. *)
Definition after_flick : View :=
  fst (view_run (mount three_slides)
         [TouchStart (mkTouch 200 50) 100; TouchMove (mkTouch 150 50); TouchEnd]).

Lemma drag_spring_not_monotone_witness :
  ~ (1 : Q) == 0 /\
  Qabs (value (iter 4 (euler_step (springConfig true) frame_dt 0) (mkSpring (0 + 1) 0)) - 0)
  < Qabs (value (iter 5 (euler_step (springConfig true) frame_dt 0) (mkSpring (0 + 1) 0)) - 0).
Proof.
  assert (H : ~ (1 : Q) == 0) by (intros H; vm_compute in H; discriminate).
  split; [exact H | exact (proj2 (drag_spring_not_monotone 0 1 H))].
Defined.

End Spring.
