(* ===== verification/Converge.v ===== *)
(** * Convergence of the two animated channels from any state

    [Spring] proves how a spring released at rest approaches its target.
    [Motion] does not start at rest: a new target arrives while the values
    are moving (a [touchmove] every frame, the release in mid-flight).
    This file gives, for each of the three configurations the component
    uses (the dragging and idle configurations of [springConfig] for the
    translation, react-motion's default configuration for the height), a
    quadratic Lyapunov function of the error [e = value - target] and of
    [u = velocity * dt] that shrinks by a fixed factor at every frame:

    - idle [[300, 30]]: [e + 2u] and [e + 3u] are eigen-modes, scaled by
      [3/4] and [2/3] at each frame;
    - dragging [[3000, 50]]: [drag_energy] of [Spring], scaled by [1/6];
    - default [[170, 26]]: [(e + 2u)^2 + (e + 6u)^2 / 100], scaled by at
      most [3/4] (a sum-of-squares certificate).

    From any state, the squared error of either channel after [n] frames is
    at most [234 (3/4)^n (e_0^2 + u_0^2)].  The frame loop of [Motion],
    which runs until both values are within [eps] of their targets,
    therefore stops, within a number of frames computed from the initial
    state. *)

From Stdlib Require Import QArith Qround Qabs Lqa ZArith Lia List Setoid Morphisms.
From S2P Require Import Prelude Gesture Controller Render Spring.
Import ListNotations.
Open Scope Q_scope.

Module Converge.
Import Gesture Controller Render Spring.

(** ** Powers and error coordinates *)

Fixpoint qpow (q : Q) (n : nat) : Q :=
  match n with
  | O => 1
  | S k => q * qpow q k
  end.

(** The error of a spring and its velocity over one frame. *)
Definition err (T : Q) (s : SpringState) : Q := value s - T.
Definition uvel (s : SpringState) : Q := velocity s * frame_dt.

(** The size of a spring state: squared error plus squared frame velocity. *)
Definition size (T : Q) (s : SpringState) : Q := err T s * err T s + uvel s * uvel s.

(** The Lyapunov functions of the three configurations. *)
Definition idle_lyap (T : Q) (s : SpringState) : Q :=
  let e := err T s in let u := uvel s in
  (e + 2 * u) * (e + 2 * u) + (e + 3 * u) * (e + 3 * u).

Definition height_lyap (T : Q) (s : SpringState) : Q :=
  let e := err T s in let u := uvel s in
  (e + 2 * u) * (e + 2 * u) + (e + 6 * u) * (e + 6 * u) * (1 # 100).

#[export] Instance err_comp : Proper (Qeq ==> eq ==> Qeq) err.
Proof. intros T T' HT s s' <-. unfold err. now rewrite HT. Qed.

#[export] Instance size_comp : Proper (Qeq ==> eq ==> Qeq) size.
Proof. intros T T' HT s s' <-. unfold size. now rewrite HT. Qed.

(** ** Lemmas on powers *)

Lemma qpow_nonneg q n : 0 <= q -> 0 <= qpow q n.
Proof.
  intros Hq. induction n as [| n IH]; cbn [qpow]; [lra |]. now apply Qmult_le_0_compat.
Qed.

Lemma qpow_pos q n : 0 < q -> 0 < qpow q n.
Proof.
  intros Hq. induction n as [| n IH]; cbn [qpow]; [lra |]. now apply Qmult_lt_0_compat.
Qed.

Lemma qpow_le_mono q r n : 0 <= q -> q <= r -> qpow q n <= qpow r n.
Proof.
  intros Hq Hr. induction n as [| n IH]; cbn [qpow]; [lra |].
  pose proof (qpow_nonneg q n Hq) as H1.
  assert (0 <= (r - q) * qpow q n) by (apply Qmult_le_0_compat; lra).
  assert (0 <= r * (qpow r n - qpow q n)) by (apply Qmult_le_0_compat; lra).
  lra.
Qed.

(** Bernoulli's inequality for [4/3]: [(1 + n/3) (3/4)^n <= 1]. *)
Lemma qpow_three_quarters n : (1 + inject_Z (Z.of_nat n) * (1 # 3)) * qpow (3 # 4) n <= 1.
Proof.
  induction n as [| n IH]; [cbn [qpow]; change (inject_Z (Z.of_nat 0)) with 0; lra |].
  rewrite inject_Z_of_nat_succ. cbn [qpow].
  pose proof (qpow_nonneg (3 # 4) n ltac:(lra)) as Hp.
  pose proof (inject_Z_of_nat_nonneg n) as HN.
  set (N := inject_Z (Z.of_nat n)) in *. set (P := qpow (3 # 4) n) in *.
  assert (0 <= N * P) by (apply Qmult_le_0_compat; assumption).
  lra.
Qed.

(** ** A contraction shrinks the error geometrically *)

Section Contraction.
Variable T : Q.
Variable f : SpringState -> SpringState.
Variable V : SpringState -> Q.
Variables rho K c : Q.
Hypothesis Hrho : 0 <= rho.
Hypothesis HK : 0 <= K.
Hypothesis Hstep : forall s, V (f s) <= rho * V s.
Hypothesis Hlow : forall s, err T s * err T s <= K * V s.
Hypothesis Hup : forall s, V s <= c * size T s.

Lemma contraction_iter n s : V (iter n f s) <= qpow rho n * V s.
Proof.
  induction n as [| n IH]; cbn [iter qpow]; [lra |].
  apply Qle_trans with (rho * V (iter n f s)); [apply Hstep |].
  assert (H : 0 <= rho * (qpow rho n * V s - V (iter n f s)))
    by (apply Qmult_le_0_compat; lra).
  lra.
Qed.

Lemma contraction_err n s :
  err T (iter n f s) * err T (iter n f s) <= K * c * qpow rho n * size T s.
Proof.
  apply Qle_trans with (K * V (iter n f s)); [apply Hlow |].
  pose proof (contraction_iter n s) as H1. pose proof (Hup s) as H2.
  pose proof (qpow_nonneg rho n Hrho) as H3.
  assert (H4 : 0 <= K * (qpow rho n * V s - V (iter n f s)))
    by (apply Qmult_le_0_compat; lra).
  assert (H5 : 0 <= K * qpow rho n * (c * size T s - V s))
    by (apply Qmult_le_0_compat; [apply Qmult_le_0_compat |]; lra).
  lra.
Qed.

End Contraction.

(** ** The three configurations *)

Ltac spring_unfold :=
  unfold idle_lyap, height_lyap, drag_energy, size, err, uvel, euler_step,
    springConfig, default_config, frame_dt; cbn [value velocity fst snd].

Lemma idle_modes T s :
  let s' := euler_step (springConfig false) frame_dt T s in
  err T s' + 2 * uvel s' == (3 # 4) * (err T s + 2 * uvel s) /\
  err T s' + 3 * uvel s' == (2 # 3) * (err T s + 3 * uvel s).
Proof. spring_unfold. split; ring. Qed.

Lemma idle_lyap_step T s :
  idle_lyap T (euler_step (springConfig false) frame_dt T s) <= (9 # 16) * idle_lyap T s.
Proof.
  destruct (idle_modes T s) as [Ha Hb]. unfold idle_lyap at 1. cbv zeta.
  rewrite Ha, Hb. unfold idle_lyap. cbv zeta.
  set (a := err T s + 2 * uvel s). set (b := err T s + 3 * uvel s).
  pose proof (Qsq_nonneg b). lra.
Qed.

Lemma idle_lyap_low T s : err T s * err T s <= 13 * idle_lyap T s.
Proof.
  unfold idle_lyap. cbv zeta.
  pose proof (Qsq_nonneg (2 * (err T s + 2 * uvel s) + 3 * (err T s + 3 * uvel s))). lra.
Qed.

Lemma idle_lyap_up T s : idle_lyap T s <= 18 * size T s.
Proof.
  unfold idle_lyap, size. cbv zeta.
  pose proof (Qsq_nonneg (err T s - (5 # 16) * uvel s)). pose proof (Qsq_nonneg (uvel s)).
  lra.
Qed.

Lemma drag_lyap_step T s :
  drag_energy T (euler_step (springConfig true) frame_dt T s) <= (1 # 6) * drag_energy T s.
Proof. rewrite drag_energy_step. lra. Qed.

Lemma drag_lyap_low T s : err T s * err T s <= (36 # 5) * drag_energy T s.
Proof. apply drag_energy_bound. Qed.

Lemma drag_lyap_up T s : drag_energy T s <= (1 # 6) * size T s.
Proof.
  spring_unfold. pose proof (Qsq_nonneg (value s - T)).
  pose proof (Qsq_nonneg (velocity s * (1 # 60))). lra.
Qed.

(** The certificate of the default configuration:
    [3/4 V - V'] is a sum of two squares. *)
Lemma height_lyap_step T s :
  height_lyap T (euler_step default_config frame_dt T s) <= (3 # 4) * height_lyap T s.
Proof.
  spring_unfold. set (e := value s - T). set (u := velocity s * (1 # 60)).
  pose proof (Qsq_nonneg (e + (768252 # 211019) * u)). pose proof (Qsq_nonneg u).
  assert (Hv : velocity s == u * 60) by (unfold u; field).
  assert (Hx : value s == e + T) by (unfold e; ring).
  rewrite Hv, Hx. lra.
Qed.

Lemma height_lyap_low T s : err T s * err T s <= (109 # 4) * height_lyap T s.
Proof.
  unfold height_lyap. cbv zeta.
  pose proof (Qsq_nonneg (10 * (err T s + 2 * uvel s) + (3 # 10) * (err T s + 6 * uvel s))).
  lra.
Qed.

Lemma height_lyap_up T s : height_lyap T s <= 7 * size T s.
Proof.
  unfold height_lyap, size. cbv zeta.
  pose proof (Qsq_nonneg (err T s - (206 # 599) * uvel s)). pose proof (Qsq_nonneg (uvel s)).
  lra.
Qed.

Lemma size_nonneg T s : 0 <= size T s.
Proof.
  unfold size. pose proof (Qsq_nonneg (err T s)). pose proof (Qsq_nonneg (uvel s)). lra.
Qed.

(** A rate [K c rho^n] below [234 (3/4)^n]. *)
Lemma rate_le K c rho n w :
  0 <= rho <= 3 # 4 -> 0 <= K * c <= 234 -> 0 <= w ->
  K * c * qpow rho n * w <= 234 * qpow (3 # 4) n * w.
Proof.
  intros Hr Hk Hw.
  pose proof (qpow_le_mono rho (3 # 4) n ltac:(lra) ltac:(lra)) as H1.
  pose proof (qpow_nonneg rho n ltac:(lra)) as H2.
  assert (0 <= (234 - K * c) * qpow rho n * w)
    by (apply Qmult_le_0_compat; [apply Qmult_le_0_compat |]; lra).
  assert (0 <= 234 * (qpow (3 # 4) n - qpow rho n) * w)
    by (apply Qmult_le_0_compat; [apply Qmult_le_0_compat |]; lra).
  lra.
Qed.

(** Every configuration the component uses shrinks the error of a spring,
    from any state, at least as fast as [234 (3/4)^n]. *)
Lemma channel_converges cfg T s n :
  cfg = springConfig true \/ cfg = springConfig false \/ cfg = default_config ->
  err T (iter n (euler_step cfg frame_dt T) s) * err T (iter n (euler_step cfg frame_dt T) s)
    <= 234 * qpow (3 # 4) n * size T s.
Proof.
  intros [-> | [-> | ->]];
    (eapply Qle_trans; [| apply rate_le; [| | apply size_nonneg]]);
    [ apply (contraction_err T _ (drag_energy T) (1 # 6) (36 # 5) (1 # 6));
        [lra | lra | apply drag_lyap_step | apply drag_lyap_low | apply drag_lyap_up]
    | lra | lra
    | apply (contraction_err T _ (idle_lyap T) (9 # 16) 13 18);
        [lra | lra | apply idle_lyap_step | apply idle_lyap_low | apply idle_lyap_up]
    | lra | lra
    | apply (contraction_err T _ (height_lyap T) (3 # 4) (109 # 4) 7);
        [lra | lra | apply height_lyap_step | apply height_lyap_low | apply height_lyap_up]
    | lra | lra ].
Qed.

(** ** The frame loop of [Motion] *)

(** [Motion] asks for animation frames until its values are close to their
    targets: the number of frames that takes, [None] when [fuel] frames
    are not enough. *)
Fixpoint frames_until {A : Type} (fuel : nat) (close : A -> bool) (f : A -> A) (s : A) :
    option nat :=
  match fuel with
  | O => None
  | S n => if close s then Some O else option_map S (frames_until n close f (f s))
  end.

(** Both values within [eps] of the targets of the style. *)
Definition motion_near (eps : Q) (st : MotionStyle) (m : MotionState) : bool :=
  Qltb (Qabs (err (translate st) (tx m))) eps && Qltb (Qabs (err (height st) (hy m))) eps.

(** The frames the loop needs at most, from the initial sizes of the two
    channels: three times [234 W / eps^2] (Bernoulli's inequality). *)
Definition motion_bound (eps : Q) (st : MotionStyle) (m : MotionState) : nat :=
  3 * Z.to_nat (Qceiling (234 * (size (translate st) (tx m) + size (height st) (hy m))
                          / (eps * eps))).

Lemma frames_until_bound {A : Type} fuel close (f : A -> A) s N :
  close (iter N f s) = true -> (N < fuel)%nat ->
  exists k, frames_until fuel close f s = Some k /\ (k <= N)%nat.
Proof.
  revert fuel s. induction N as [| N IH]; intros fuel s Hc Hf;
    (destruct fuel as [| fuel]; [lia |]); cbn [frames_until].
  - cbn [iter] in Hc. rewrite Hc. now exists O.
  - destruct (close s); [exists O; split; [reflexivity | lia] |].
    rewrite iter_succ_r in Hc. destruct (IH fuel (f s) Hc ltac:(lia)) as (k & -> & Hk).
    exists (S k). split; [reflexivity | lia].
Qed.

(** [inject_Z (Z.to_nat (Qceiling q))] is at least [q]. *)
Lemma ceiling_nat_ge q : q <= inject_Z (Z.of_nat (Z.to_nat (Qceiling q))).
Proof.
  destruct (Z.le_gt_cases 0 (Qceiling q)) as [H | H].
  - rewrite Z2Nat.id by exact H. apply Qle_ceiling.
  - replace (Z.to_nat (Qceiling q)) with O by lia.
    apply Qle_trans with (inject_Z (Qceiling q)); [apply Qle_ceiling |].
    rewrite <- Zle_Qle. simpl. lia.
Qed.

(** [a / b <= m] with [b > 0] gives [a <= m b]. *)
Lemma Qdiv_le_mult a b m : 0 < b -> a / b <= m -> a <= m * b.
Proof.
  intros Hb H. apply (Qmult_le_compat_r _ _ b) in H; [| lra].
  setoid_replace (a / b * b) with a in H by (field; lra). exact H.
Qed.

(** An error whose square is below [eps^2] is below [eps]. *)
Lemma abs_lt_of_sq e eps : 0 < eps -> e * e < eps * eps -> Qabs e < eps.
Proof.
  intros He H. destruct (Qlt_le_dec (Qabs e) eps) as [| Hge]; [assumption | exfalso].
  assert (Habs : Qabs e * Qabs e == e * e)
    by (rewrite <- Qabs_Qmult; apply Qabs_pos, Qsq_nonneg).
  assert (0 <= (Qabs e - eps) * (Qabs e + eps)) by (apply Qmult_le_0_compat; lra).
  lra.
Qed.

(** Both channels of a rendered style converge at the common rate. *)
Lemma motion_converges sl st m n :
  let ms := render sl st in
  err (translate ms) (tx (motion_frames n ms m)) * err (translate ms) (tx (motion_frames n ms m))
    <= 234 * qpow (3 # 4) n * size (translate ms) (tx m) /\
  err (height ms) (hy (motion_frames n ms m)) * err (height ms) (hy (motion_frames n ms m))
    <= 234 * qpow (3 # 4) n * size (height ms) (hy m).
Proof.
  intros ms. rewrite motion_frames_tx, motion_frames_hy. split; apply channel_converges.
  - unfold ms, render. cbn [translate_config].
    destruct (isDragging st); [left | right; left]; reflexivity.
  - right; right; reflexivity.
Qed.

(** ** Properties *)

(** C15: once the view is synced, [Motion] converges to what the state says
    from whatever values and velocities it has: after [n] frames the
    squared distance of the translation to [100 * index], and that of the
    height to the measured height of the slide at [targetIndex], are at
    most [234 (3/4)^n] times their initial size (squared distance plus
    squared velocity per frame), with the dragging or idle configuration
    of the translation and the default one of the height. *)
Theorem view_settles v m n :
  synced v ->
  let ti := index (state (comp v)) * 100 in
  let th := getTargetHeight (slides v) (targetIndex (state (comp v))) in
  err ti (tx (motion_frames n (style v) m)) * err ti (tx (motion_frames n (style v) m))
    <= 234 * qpow (3 # 4) n * size ti (tx m) /\
  err th (hy (motion_frames n (style v) m)) * err th (hy (motion_frames n (style v) m))
    <= 234 * qpow (3 # 4) n * size th (hy m).
Proof.
  intros (_ & _ & Htr & Hcf & Hh) ti th.
  assert (E1 : ti == translate (style v)) by (symmetry; exact Htr).
  assert (E2 : th == height (style v)) by (symmetry; exact Hh).
  rewrite E1, E2, motion_frames_tx, motion_frames_hy.
  split; apply channel_converges;
    [rewrite Hcf; destruct (isDragging (state (comp v))); [left | right; left]; reflexivity
    | right; right; reflexivity].
Qed.

(** C21: the animation ends: for every style [render] produces and every
    state of [Motion], the frame loop that runs until both values are
    within [eps > 0] of their targets stops after at most [motion_bound]
    frames. *)
Theorem motion_animation_terminates sl st m eps :
  0 < eps ->
  let ms := render sl st in
  exists k, frames_until (S (motion_bound eps ms m)) (motion_near eps ms) (motion_frame ms) m
              = Some k /\ (k <= motion_bound eps ms m)%nat.
Proof.
  intros Heps ms. apply frames_until_bound; [| lia].
  set (W := size (translate ms) (tx m) + size (height ms) (hy m)).
  set (M := Z.to_nat (Qceiling (234 * W / (eps * eps)))).
  change (iter (motion_bound eps ms m) (motion_frame ms) m)
    with (motion_frames (3 * M) ms m).
  destruct (motion_converges sl st m (3 * M)) as [Ht Hh]. fold ms in Ht, Hh.
  pose proof (qpow_three_quarters (3 * M)) as Hb.
  pose proof (ceiling_nat_ge (234 * W / (eps * eps))) as Hc. fold M in Hc.
  pose proof (size_nonneg (translate ms) (tx m)) as Hs1.
  pose proof (size_nonneg (height ms) (hy m)) as Hs2.
  pose proof (qpow_pos (3 # 4) (3 * M) ltac:(lra)) as Hq.
  assert (HW0 : 0 <= W) by (unfold W; lra).
  assert (He2 : 0 < eps * eps) by (apply Qmult_lt_0_compat; lra).
  assert (HW : 234 * W <= inject_Z (Z.of_nat M) * (eps * eps))
    by (apply Qdiv_le_mult; assumption).
  rewrite Nat2Z.inj_mul, inject_Z_mult in Hb. change (inject_Z (Z.of_nat 3)) with 3 in Hb.
  set (N := inject_Z (Z.of_nat M)) in *. set (P := qpow (3 # 4) (3 * M)) in *.
  (* [234 W P < eps^2], since [(1 + N) P <= 1] and [234 W <= N eps^2]. *)
  assert (HP : 234 * P * W < eps * eps).
  { assert (0 <= P * (N * (eps * eps) - 234 * W)) by (apply Qmult_le_0_compat; lra).
    assert (0 <= (eps * eps) * (1 - (1 + N) * P)).
    { apply Qmult_le_0_compat; [lra |].
      setoid_replace ((1 + 3 * N * (1 # 3)) * P) with ((1 + N) * P) in Hb by ring. lra. }
    assert (0 < eps * eps * P) by (apply Qmult_lt_0_compat; lra).
    lra. }
  unfold motion_near. apply andb_true_intro; split;
    apply (reflect_iff _ _ (Qltb_spec _ _)), abs_lt_of_sq; try exact Heps.
  - apply Qle_lt_trans with (234 * P * size (translate ms) (tx m)); [exact Ht |].
    assert (0 <= 234 * P * size (height ms) (hy m)) by
      (apply Qmult_le_0_compat; [apply Qmult_le_0_compat |]; lra).
    unfold W in HP. lra.
  - apply Qle_lt_trans with (234 * P * size (height ms) (hy m)); [exact Hh |].
    assert (0 <= 234 * P * size (translate ms) (tx m)) by
      (apply Qmult_le_0_compat; [apply Qmult_le_0_compat |]; lra).
    unfold W in HP. lra.
Qed.

(** ** Witnesses *)

Lemma view_settles_witness :
  synced after_flick /\
  err (index (state (comp after_flick)) * 100)
      (tx (motion_frames 3 (style after_flick) (mkMotion (mkSpring 50 (-600)) (mkSpring 0 0))))
  * err (index (state (comp after_flick)) * 100)
      (tx (motion_frames 3 (style after_flick) (mkMotion (mkSpring 50 (-600)) (mkSpring 0 0))))
    <= 234 * qpow (3 # 4) 3 * size (index (state (comp after_flick)) * 100) (mkSpring 50 (-600)).
Proof.
  assert (H : synced after_flick) by (unfold synced; vm_compute; repeat split; reflexivity).
  split; [exact H |].
  exact (proj1 (view_settles after_flick (mkMotion (mkSpring 50 (-600)) (mkSpring 0 0)) 3 H)).
Defined.

Lemma motion_animation_terminates_witness :
  0 < 1 /\
  exists k, frames_until (S (motion_bound 1 (render [Some (100 : Q); Some (200 : Q)] (state mounted))
                                          (mkMotion (mkSpring 100 0) (mkSpring 0 0))))
              (motion_near 1 (render [Some (100 : Q); Some (200 : Q)] (state mounted)))
              (motion_frame (render [Some (100 : Q); Some (200 : Q)] (state mounted)))
              (mkMotion (mkSpring 100 0) (mkSpring 0 0)) = Some k /\
            (k <= motion_bound 1 (render [Some (100 : Q); Some (200 : Q)] (state mounted))
                               (mkMotion (mkSpring 100 0) (mkSpring 0 0)))%nat.
Proof.
  assert (H : 0 < 1) by reflexivity.
  split; [exact H |].
  exact (motion_animation_terminates [Some (100 : Q); Some (200 : Q)] (state mounted)
           (mkMotion (mkSpring 100 0) (mkSpring 0 0)) 1 H).
Defined.

End Converge.
