(* ===== verification/Settle.v ===== *)
(** * Swipes, then the animation settles on a slide

    The end-to-end promise of the component, composed from the other
    files: the gesture handlers of [Controller] keep the index on a slide
    ([gesture_idle]), the update cycle of [Render] keeps the spring targets
    in step with the state ([synced_dispatch]), and [Motion] converges from
    whatever values the animation had when the last event arrived
    ([Converge.channel_converges]).  Animation frames do not change the
    component, so any interleaving of frames with the events leaves the
    view as the events alone make it and only changes the state of
    [Motion], which the convergence bound takes as it is. *)

From Stdlib Require Import QArith Lqa ZArith Lia List.
From S2P Require Import Prelude Gesture Controller Refinement Render Spring Converge.
Import ListNotations.
Open Scope Q_scope.

Module Settle.
Import Gesture Controller Refinement Render Spring Converge.

(** Events that are not a prop update: touches and lifecycle events. *)
Definition touch_only (es : list Event) : Prop :=
  Forall (fun e => forall p, e <> ReceiveProps p) es.

(** ** Lemmas *)

Lemma run_cons c e es : fst (run c (e :: es)) = fst (run (fst (dispatch c e)) es).
Proof.
  cbn [run]. destruct (dispatch c e) as [c1 o1]. cbn [fst].
  destruct (run c1 es) as [c2 o2]. reflexivity.
Qed.

(** The view's component follows [Controller.run]. *)
Lemma view_run_comp v es : comp (fst (view_run v es)) = fst (run (comp v) es).
Proof.
  revert v. induction es as [| e es IH]; intros v; [reflexivity |].
  rewrite view_run_cons, IH, view_dispatch_comp. symmetry. apply run_cons.
Qed.

Lemma synced_touch_run v es : synced v -> touch_only es -> synced (fst (view_run v es)).
Proof.
  revert v. induction es as [| e es IH]; intros v Hs Ht; [exact Hs |].
  inversion Ht as [| ? ? He Ht']; subst. rewrite view_run_cons. apply IH; [| exact Ht'].
  apply synced_dispatch; [exact Hs |]. now rewrite dispatch_props.
Qed.

Lemma gestures_touch_only gs : touch_only (flat_map gesture_events gs).
Proof.
  unfold touch_only. apply Forall_forall. intros e He p ->.
  apply in_flat_map in He as ([[t w] ms] & _ & He). cbn [gesture_events gesture] in He.
  destruct He as [He | He]; [discriminate |].
  apply in_app_or in He as [He | [He | []]]; [| discriminate].
  apply in_map_iff in He as (x & Hx & _). discriminate.
Qed.

Lemma gestures_idle n c gs :
  idle n c = true -> idle n (fst (run c (flat_map gesture_events gs))) = true.
Proof.
  revert c. induction gs as [| [[t w] ms] gs IH]; intros c H; [exact H |].
  change (flat_map gesture_events ((t, w, ms) :: gs))
    with (gesture t w ms ++ flat_map gesture_events gs).
  rewrite run_app. pose proof (gesture_idle n c t w ms H) as H1.
  destruct (run c (gesture t w ms)) as [c1 o1]. cbn [fst] in H1.
  specialize (IH c1 H1). destruct (run c1 (flat_map gesture_events gs)) as [c2 o2].
  exact IH.
Qed.

(** ** Property *)

(** C13: after any sequence of complete swipes from a synced idle view,
    with animation frames interleaved in any way, the index is a slide of
    [0, childCount - 1], nothing is dragging, and from whatever state the
    animation is in, the translation converges to [100 * index] and the
    height to the measured height of the slide at [targetIndex]: the
    squared distances after [k] more frames are at most [234 (3/4)^k]
    times their size when the swipes ended. *)
Theorem swipes_settle n v gs m k :
  synced v -> idle n (comp v) = true ->
  let v' := fst (view_run v (flat_map gesture_events gs)) in
  let ti := index (state (comp v')) * 100 in
  let th := getTargetHeight (slides v') (targetIndex (state (comp v'))) in
  slide_index n (index (state (comp v'))) = true /\ isDragging (state (comp v')) = false /\
  err ti (tx (motion_frames k (style v') m)) * err ti (tx (motion_frames k (style v') m))
    <= 234 * qpow (3 # 4) k * size ti (tx m) /\
  err th (hy (motion_frames k (style v') m)) * err th (hy (motion_frames k (style v') m))
    <= 234 * qpow (3 # 4) k * size th (hy m).
Proof.
  intros Hs Hi v' ti th.
  pose proof (synced_touch_run v _ Hs (gestures_touch_only gs)) as Hs'. fold v' in Hs'.
  pose proof (gestures_idle n (comp v) gs Hi) as Hi'. rewrite <- view_run_comp in Hi'.
  fold v' in Hi'. apply idle_spec in Hi' as (_ & Hix & _ & Hd).
  destruct Hs' as (_ & _ & Htr & Hcf & Hh).
  assert (E1 : ti == translate (style v')) by (symmetry; exact Htr).
  assert (E2 : th == height (style v')) by (symmetry; exact Hh).
  split; [exact Hix | split; [exact Hd |]].
  rewrite E1, E2, motion_frames_tx, motion_frames_hy.
  split; apply channel_converges;
    [rewrite Hcf, Hd; right; left; reflexivity | right; right; reflexivity].
Qed.

(** ** Witness *)

Lemma swipes_settle_witness :
  synced (mount three_slides) /\ idle 3 (comp (mount three_slides)) = true /\
  slide_index 3 (index (state (comp (fst (view_run (mount three_slides)
    (flat_map gesture_events [(mkTouch 200 50, 100, [mkTouch 190 50; mkTouch 170 50])])))))) = true.
Proof.
  assert (H1 : synced (mount three_slides))
    by (unfold synced; vm_compute; repeat split; reflexivity).
  assert (H2 : idle 3 (comp (mount three_slides)) = true) by reflexivity.
  split; [exact H1 | split; [exact H2 |]].
  exact (proj1 (swipes_settle 3 (mount three_slides)
                  [(mkTouch 200 50, 100, [mkTouch 190 50; mkTouch 170 50])]
                  (mkMotion (mkSpring 0 0) (mkSpring 0 0)) 0 H1 H2)).
Defined.

End Settle.
