(* ===== verification/Dom.v ===== *)
(** * The rendered element tree and the slide registry

    What [render] and [renderContainer] (lines 181-255 of
    [src/src/index.js]) return, as a tree of [div]s: the root [div] with
    [styles.root] and the touch handlers unless [disabled]; inside it the
    [Motion], whose child function renders the container [div] with the
    transform, the height and the [style] prop merged by [objectAssign];
    inside that one [div] per slide with [styles.slide] and a ref callback.

    The ref callbacks fill [this._slides]: on the first render the single
    slide's callback writes index 0 unconditionally; afterwards each
    callback writes [this._slides[i++]] unless it receives [null].  When
    React commits a new tree it calls the callbacks of the previous tree
    with [null], then those of the new tree with their DOM nodes, in order;
    [renderContainer] has reset [this._slides] to [[]] and [i] to 0.  The
    registry is a JS array: writing past its end extends it with holes.
    [commit] plays that sequence of calls; its result is what
    [Render.renderContainer_slides] abstracts. *)

From Stdlib Require Import QArith Lqa ZArith Lia List Bool String.
From S2P Require Import Prelude Gesture Css Controller Render Spring Converge.
Import ListNotations.
Open Scope Q_scope.

#[local] Set Warnings "-register-all".

Module Dom.
Import Gesture Css Controller Render Spring Converge.

(** ** The element tree *)

(** The two ref callbacks of [renderContainer]: [(s) => this._slides[0] = s]
    (line 197) and [(s) => { if (s !== null) this._slides[i++] = s }]
    (lines 204-207). *)
Inductive RefCallback := RefFirstSlide | RefNextSlide.

(** A rendered element: a [div] with its ref, style, touch handlers and
    children, or a child element of the host. *)
Inductive Node :=
| Div (ref : option RefCallback) (css : Style) (handlers : list string) (kids : list Node)
| Slot (c : Child).

(** The values [Motion] hands its child function. *)
Record Interpolated := mkInterp { m_translate : Q; m_height : Q }.

Definition interpolated (m : MotionState) : Interpolated :=
  {| m_translate := value (tx m); m_height := value (hy m) |}.

(** The container style (lines 215-219). *)
Definition container_style (im : Interpolated) (sp : option Style) : Style :=
  objectAssign
    [("WebkitTransform", CssStr (translate_string (m_translate im)));
     ("transform", CssStr (translate_string (m_translate im)));
     ("height", CssNum (m_height im))]%string
    [Some styles_container; sp].

(** [childrenToRender] (lines 193-212): the first child alone in a slide on
    the first render ([React.Children.toArray(children)[0]], nothing when
    there is no child), every child in its slide afterwards. *)
Definition childrenToRender (isFirstRender : bool) (cs : list Child) : list Node :=
  if isFirstRender
  then [Div (Some RefFirstSlide) styles_slide []
            (match cs with c :: _ => [Slot c] | [] => [] end)]
  else map (fun c => Div (Some RefNextSlide) styles_slide [] [Slot c]) cs.

(** [renderContainer(motion)]. *)
Definition renderContainer (im : Interpolated) (c : Component) : Node :=
  Div None (container_style im (style_prop (props c))) []
      (childrenToRender (isFirstRender (state c)) (children (props c))).

(** [touchEvents] (lines 242-246). *)
Definition touchEvents (disabled : bool) : list string :=
  if disabled then [] else ["onTouchStart"; "onTouchMove"; "onTouchEnd"]%string.

(** [render()] once [Motion] has called its child function with the
    current values of the springs. *)
Definition render_tree (c : Component) (m : MotionState) : Node :=
  Div None styles_root (touchEvents (disabled (props c))) [renderContainer (interpolated m) c].

(** ** The slide registry *)

(** What [getTargetHeight] reads of a slide's DOM node:
    [slide.children[0].clientHeight], [None] when [children[0]] is
    [undefined]. *)
Definition SlideNode := option Q.

Definition slide_node (kids : list Node) : SlideNode :=
  match kids with Slot c :: _ => clientHeight c | _ => None end.

(** [this._slides]: [None] is a hole, [null] or [undefined]. *)
Definition Registry := list (option SlideNode).

(** [a[n] = x] on a JS array: past the end, the array grows with holes. *)
Fixpoint js_array_set {A : Type} (l : list (option A)) (n : nat) (x : option A) :
    list (option A) :=
  match l, n with
  | _ :: l', O => x :: l'
  | y :: l', S n' => y :: js_array_set l' n' x
  | [], O => [x]
  | [], S n' => None :: js_array_set [] n' x
  end.

(** One call of a ref callback with a node or [null], on the registry and
    the counter [i] of the render that created the callback. *)
Definition ref_call (r : RefCallback) (reg : Registry) (i : nat) (s : option SlideNode) :
    Registry * nat :=
  match r with
  | RefFirstSlide => (js_array_set reg 0 s, i)
  | RefNextSlide =>
      match s with
      | Some n => (js_array_set reg i (Some n), S i)
      | None => (reg, i)
      end
  end.

(** The slides of a container and their ref callbacks, in order. *)
Definition slide_refs (n : Node) : list (RefCallback * SlideNode) :=
  match n with
  | Div _ _ _ kids =>
      flat_map (fun k => match k with
                         | Div (Some r) _ _ ks => [(r, slide_node ks)]
                         | _ => []
                         end) kids
  | Slot _ => []
  end.

(** Detaching the previous tree's callbacks, with the counter [i_old] their
    render left, from the registry [renderContainer] reset to [[]]. *)
Definition detach (old : list RefCallback) (i_old : nat) : Registry :=
  fst (fold_left (fun st r => ref_call r (fst st) (snd st) None) old ([], i_old)).

(** Then attaching the new ones, with the counter reset to 0. *)
Definition commit (old : list RefCallback) (i_old : nat)
    (new : list (RefCallback * SlideNode)) : Registry :=
  fst (fold_left (fun st rn => ref_call (fst rn) (fst st) (snd st) (Some (snd rn)))
                 new (detach old i_old, 0%nat)).

(** The registry as [getTargetHeight] sees it. *)
Definition registry_slides (reg : Registry) : Slides :=
  map (fun e => match e with Some h => h | None => None end) reg.

(** The [transform] of the container [div] of a rendered tree. *)
Definition container_transform (n : Node) : option CssValue :=
  match n with
  | Div _ _ _ [Div _ css _ _] => style_get "transform" css
  | _ => None
  end%string.

(** The style and the children of a [div]. *)
Definition node_css (n : Node) : Style :=
  match n with Div _ css _ _ => css | Slot _ => [] end.

Definition node_kids (n : Node) : list Node :=
  match n with Div _ _ _ kids => kids | Slot _ => [] end.

(** The properties the [style] prop writes, none when it is [undefined]. *)
Definition prop_writes (sp : option Style) : Style :=
  match sp with Some o => o | None => [] end.

(** ** A drag back to the first slide *)

(** Half a slide to the left, then back past the first slide: the index
    clamps to 0 while the finger is still down. *)
Definition drag_left : View :=
  fst (view_run (mount three_slides)
         [TouchStart (mkTouch 200 50) 100; TouchMove (mkTouch 150 50)]).

Definition drag_back : View := fst (view_run drag_left [TouchMove (mkTouch 220 50)]).

(** ** Lemmas *)

(** A registry with nothing in it but possibly a [null] at index 0. *)
Definition blank (reg : Registry) : Prop := reg = [] \/ reg = [None].

Lemma detach_blank old st :
  blank (fst st) ->
  blank (fst (fold_left (fun st r => ref_call r (fst st) (snd st) None) old st)).
Proof.
  revert st. induction old as [| r old IH]; intros [reg i] Hb; simpl in Hb |- *; [exact Hb |].
  apply IH. destruct r; simpl; [| exact Hb].
  right. destruct Hb as [-> | ->]; reflexivity.
Qed.

Lemma js_array_set_end {A : Type} (pre rest : list (option A)) x :
  rest = [] \/ rest = [None] -> js_array_set (pre ++ rest) (List.length pre) x = pre ++ [x].
Proof.
  intros Hr. induction pre as [| y pre IH]; simpl; [| now rewrite IH].
  destruct Hr as [-> | ->]; reflexivity.
Qed.

(** Attaching [RefNextSlide] callbacks writes the nodes one after the other
    from index [length pre]. *)
Lemma attach_next pre rest ns :
  blank rest ->
  fst (fold_left (fun st rn => ref_call (fst rn) (fst st) (snd st) (Some (snd rn)))
                 (map (fun n => (RefNextSlide, n)) ns) (pre ++ rest, List.length pre)) =
    match ns with [] => pre ++ rest | _ => pre ++ map Some ns end.
Proof.
  revert pre rest. induction ns as [| n ns IH]; intros pre rest Hb; [reflexivity |].
  simpl. rewrite js_array_set_end by exact Hb.
  replace (S (List.length pre)) with (List.length (pre ++ [Some n]))
    by (rewrite length_app; simpl; lia).
  rewrite <- (app_nil_r (pre ++ [Some n])) at 1.
  rewrite IH by (left; reflexivity).
  destruct ns; simpl; rewrite <- ?app_assoc; simpl; rewrite ?app_nil_r; reflexivity.
Qed.

Lemma slide_refs_renderContainer im c :
  slide_refs (renderContainer im c) =
    if isFirstRender (state c)
    then [(RefFirstSlide, match children (props c) with ch :: _ => clientHeight ch | [] => None end)]
    else map (fun ch => (RefNextSlide, clientHeight ch)) (children (props c)).
Proof.
  unfold renderContainer, slide_refs, childrenToRender.
  destruct (isFirstRender (state c)).
  - simpl. now destruct (children (props c)).
  - induction (children (props c)) as [| ch cs IH]; simpl; [reflexivity |]. now rewrite IH.
Qed.

Lemma getTargetHeight_null t : getTargetHeight [None] t = 0.
Proof.
  unfold getTargetHeight. destruct (js_index t) as [[| [| k]] |]; reflexivity.
Qed.

Lemma getTargetHeight_nil t : getTargetHeight [] t = 0.
Proof. unfold getTargetHeight. destruct (js_index t) as [[| k] |]; reflexivity. Qed.

Lemma registry_slides_map ns : registry_slides (map Some ns) = ns.
Proof. unfold registry_slides. rewrite map_map. apply map_id. Qed.

(** The container's property [k]: the [style] prop's, else
    [styles.container]'s, else the transform or height of the springs. *)
Lemma container_style_get im sp k :
  style_get k (container_style im sp) =
    match last_write k (prop_writes sp) with
    | Some v => Some v
    | None =>
        match last_write k styles_container with
        | Some v => Some v
        | None => style_get k [("WebkitTransform", CssStr (translate_string (m_translate im)));
                               ("transform", CssStr (translate_string (m_translate im)));
                               ("height", CssNum (m_height im))]%string
        end
    end.
Proof.
  unfold container_style. rewrite objectAssign_get_gen.
  destruct sp as [o |]; cbn [map List.concat prop_writes]; rewrite ?app_nil_r;
    [rewrite last_write_app; now destruct (last_write k o) | reflexivity].
Qed.

(** ** Properties *)

(** C24: the ref callbacks fill the registry that [Render] reads: whatever
    the previous tree's callbacks were, detaching them with [null] and
    attaching the new slides of [renderContainer] leaves a [this._slides]
    from which [getTargetHeight] reads, for every [targetIndex], the same
    height as from [Render.renderContainer_slides]. *)
Theorem commit_registry old i_old im c t :
  getTargetHeight (registry_slides (commit old i_old (slide_refs (renderContainer im c)))) t =
  getTargetHeight (renderContainer_slides (isFirstRender (state c)) (children (props c))) t.
Proof.
  unfold commit. rewrite slide_refs_renderContainer.
  pose proof (detach_blank old ([], i_old) (or_introl eq_refl)) as Hb.
  fold (detach old i_old) in Hb. generalize dependent (detach old i_old). intros reg Hb.
  destruct (isFirstRender (state c)).
  - destruct Hb as [-> | ->]; reflexivity.
  - rewrite <- (map_map clientHeight (fun n => (RefNextSlide, n))).
    change (reg, 0%nat) with ([] ++ reg, List.length (@nil (option SlideNode))).
    rewrite attach_next by exact Hb. unfold renderContainer_slides.
    destruct (children (props c)) as [| ch cs]; cbn [map app].
    + destruct Hb as [-> | ->]; now rewrite ?getTargetHeight_null, ?getTargetHeight_nil.
    + change (Some (clientHeight ch) :: map Some (map clientHeight cs))
        with (map Some (clientHeight ch :: map clientHeight cs)).
      now rewrite registry_slides_map.
Qed.

(** The [style] prop styles the strip, not the slides: every slide [div]
    has exactly [styles.slide], whatever the prop holds, while every
    property the prop writes (the transform and the height included)
    overrides the container's. *)
Lemma style_prop_container_only im c :
  Forall (fun n => node_css n = styles_slide) (node_kids (renderContainer im c)) /\
  (forall k v, last_write k (prop_writes (style_prop (props c))) = Some v ->
               style_get k (node_css (renderContainer im c)) = Some v).
Proof.
  split.
  - unfold renderContainer, childrenToRender. cbn [node_kids].
    destruct (isFirstRender (state c)); [now repeat constructor |].
    apply Forall_map, Forall_forall. reflexivity.
  - intros k v Hv. cbn [renderContainer node_css]. now rewrite container_style_get, Hv.
Qed.

(** C29: whenever the dragging spring overshoots a target near the first
    slide, the rendered strip jumps: on a synced view during a drag, when
    the translation spring has error [e] and frame velocity [u] with
    [18 T + u < 2 e] for the target [T = 100 * index], two animation frames
    later the interpolated translation is [T + (u - 2 e) / 18 < 0], and the
    container's transform is [translate3d(--...%, 0, 0)], which CSS
    rejects, so the browser keeps the previous frame's transform. *)
Theorem drag_overshoot_frame_rejected v m :
  synced v -> isDragging (state (comp v)) = true ->
  last_write "transform" (prop_writes (style_prop (props (comp v)))) = None ->
  let T := index (state (comp v)) * 100 in
  18 * T + uvel (tx m) < 2 * err T (tx m) ->
  let x := value (tx (motion_frames 2 (style v) m)) in
  x == T + (uvel (tx m) - 2 * err T (tx m)) / 18 /\ x < 0 /\
  container_transform (render_tree (comp v) (motion_frames 2 (style v) m)) =
    Some (CssStr (translate_string x)) /\
  parse_translate3d (translate_string x) = None.
Proof.
  intros (_ & _ & Htr & Hcf & _) Hd Hw T Hov x.
  assert (Hx : x == T + (uvel (tx m) - 2 * err T (tx m)) / 18).
  { unfold x. rewrite motion_frames_tx, Hcf, Hd. cbn [iter step euler_stepper].
    destruct (drag_step_coords (translate (style v)) (tx m)) as [A1 B1].
    destruct (drag_step_coords (translate (style v))
                (euler_step (springConfig true) frame_dt (translate (style v)) (tx m)))
      as [A2 _].
    rewrite A1, B1 in A2. unfold T, err, uvel. rewrite <- Htr.
    set (V := value _) in A2 |- *.
    setoid_replace V with (translate (style v) + (V - translate (style v))) by ring.
    rewrite A2. field. }
  assert (Hneg : x < 0).
  { assert (H18 : 18 * x == 18 * T + uvel (tx m) - 2 * err T (tx m)) by (rewrite Hx; field).
    lra. }
  split; [exact Hx | split; [exact Hneg | split]].
  - cbn [render_tree renderContainer container_transform].
    rewrite container_style_get, Hw. reflexivity.
  - rewrite translate_string_neg by exact Hneg. apply parse_doubled_minus.
Qed.

(** ** Witnesses *)

Lemma drag_overshoot_frame_rejected_witness :
  synced drag_back /\ isDragging (state (comp drag_back)) = true /\
  last_write "transform" (prop_writes (style_prop (props (comp drag_back)))) = None /\
  18 * (index (state (comp drag_back)) * 100) + uvel (mkSpring 50 0)
    < 2 * err (index (state (comp drag_back)) * 100) (mkSpring 50 0) /\
  parse_translate3d (translate_string
    (value (tx (motion_frames 2 (style drag_back) (mkMotion (mkSpring 50 0) (mkSpring 0 0))))))
    = None.
Proof.
  assert (H1 : synced drag_back) by (unfold synced; vm_compute; repeat split; reflexivity).
  assert (H2 : isDragging (state (comp drag_back)) = true) by (vm_compute; reflexivity).
  assert (H3 : last_write "transform" (prop_writes (style_prop (props (comp drag_back)))) = None)
    by (vm_compute; reflexivity).
  assert (H4 : 18 * (index (state (comp drag_back)) * 100) + uvel (mkSpring 50 0)
               < 2 * err (index (state (comp drag_back)) * 100) (mkSpring 50 0))
    by (vm_compute; reflexivity).
  split; [exact H1 | split; [exact H2 | split; [exact H3 | split; [exact H4 |]]]].
  exact (proj2 (proj2 (proj2 (drag_overshoot_frame_rejected drag_back
           (mkMotion (mkSpring 50 0) (mkSpring 0 0)) H1 H2 H3 H4)))).
Defined.

End Dom.
